(** * Bug tracker: validation, sanitization, identifier check, routes, client filter

    A shallow embedding of
      - [server/src/utils/validation.js]  (validateBugData, sanitizeBugData,
        isValidObjectId),
      - [server/src/routes/bugs.js]       (the /:id handlers and POST),
      - [client/src/components/BugList]   (the filtering effect, the two
        filter handlers and what is rendered),
      - [client/src/components/BugForm]   (validateForm, handleSubmit and
        the tag handlers),
      - [client/src/App.js]               (the updates of the list state),
    together with the properties the specification states about them and
    further properties read off the code.

    Conventions of the model.
      - A JavaScript string is a [string]; one [ascii] stands for one UTF-16
        code unit below 256, so [String.length] is the [.length] property.
      - A JavaScript object used as a mapping is a [gmap string JsValue];
        a property that is absent reads as [JUndefined].
      - Code that may throw lives in the exception monad [Exc]. *)

From Stdlib Require Import QArith Ascii.
From stdpp Require Import gmap strings list sorting pretty.

#[local] Set Warnings "-register-all".
#[local] Open Scope nat_scope.

(** ** JavaScript values and the primitive operations the sources use *)

Module Js.

(** The values a parsed request body or a test fixture can hold. A number
    is kept as a rational: the sources only look at its type and its
    truthiness. *)
Inductive JsValue : Type :=
  | JUndefined
  | JNull
  | JBool (b : bool)
  | JNum (q : Q)
  | JStr (s : string)
  | JArr (l : list JsValue)
  | JObj (m : gmap string JsValue).

(** [o.k]: reading a property of a plain object. *)
Definition get (o : gmap string JsValue) (k : string) : JsValue :=
  default JUndefined (o !! k).

(** ToBoolean. *)
Definition truthy (v : JsValue) : bool :=
  match v with
  | JUndefined | JNull => false
  | JBool b => b
  | JNum q => negb (Qnum q =? 0)%Z
  | JStr s => negb (String.eqb s "")
  | JArr _ | JObj _ => true
  end.

(** The [typeof] operator. *)
Definition typeof (v : JsValue) : string :=
  match v with
  | JUndefined => "undefined"
  | JNull => "object"
  | JBool _ => "boolean"
  | JNum _ => "number"
  | JStr _ => "string"
  | JArr _ | JObj _ => "object"
  end.

Definition isArray (v : JsValue) : bool :=
  match v with JArr _ => true | _ => false end.

(** [v !== undefined]. *)
Definition notUndefined (v : JsValue) : bool :=
  match v with JUndefined => false | _ => true end.

(** *** Exceptions *)

Inductive JsError : Type :=
  | TypeError (msg : string).

Inductive Exc (A : Type) : Type :=
  | Ok (a : A)
  | Throw (e : JsError).
Arguments Ok {A} a.
Arguments Throw {A} e.

#[export] Instance Exc_ret : MRet Exc := fun A a => Ok a.
#[export] Instance Exc_bind : MBind Exc := fun A B f m =>
  match m with
  | Ok a => f a
  | Throw e => Throw e
  end.

Fixpoint mapM {A B : Type} (f : A → Exc B) (l : list A) : Exc (list B) :=
  match l with
  | [] => Ok []
  | x :: r => y ← f x; ys ← mapM f r; Ok (y :: ys)
  end.

Fixpoint foldM {A St : Type} (f : St → A → Exc St) (l : list A) (s : St) : Exc St :=
  match l with
  | [] => Ok s
  | x :: r => s' ← f s x; foldM f r s'
  end.

(** *** String.prototype.trim

    White space and line terminators among the code units below 256:
    TAB, LF, VT, FF, CR, SPACE and NO-BREAK SPACE. *)

Definition isWhiteSpace (c : ascii) : bool :=
  let n := N_of_ascii c in
  ((9 <=? n) && (n <=? 13) || (n =? 32) || (n =? 160))%N.

Fixpoint trimStart (s : string) : string :=
  match s with
  | "" => ""
  | String c r => if isWhiteSpace c then trimStart r else s
  end.

Fixpoint trimEnd (s : string) : string :=
  match s with
  | "" => ""
  | String c r =>
      match trimEnd r with
      | "" => if isWhiteSpace c then "" else String c ""
      | r' => String c r'
      end
  end.

Definition trim (s : string) : string := trimEnd (trimStart s).

(** [v.trim()]: only strings have the method; calling it on anything else
    is a TypeError. *)
Definition method_trim (v : JsValue) : Exc string :=
  match v with
  | JStr s => Ok (trim s)
  | _ => Throw (TypeError "trim is not a function")
  end.

(** [v.length]: the length of a string or an array, [undefined] ([None])
    on booleans and numbers, a TypeError on [undefined] and [null]. The
    sources read [.length] of strings only; an own [length] property of a
    plain object is not modelled and reads as [undefined]. *)
Definition prop_length (v : JsValue) : Exc (option nat) :=
  match v with
  | JStr s => Ok (Some (String.length s))
  | JArr l => Ok (Some (length l))
  | JUndefined | JNull =>
      Throw (TypeError "Cannot read properties of undefined (reading 'length')")
  | _ => Ok None
  end.

(** [len > bound] where [len] may be [undefined] (then the test is false). *)
Definition gt (len : option nat) (bound : nat) : bool :=
  match len with
  | Some n => bound <? n
  | None => false
  end.

(** [list.includes(v)] for an array literal of strings (SameValueZero). *)
Definition sameValueZeroStr (s : string) (v : JsValue) : bool :=
  match v with
  | JStr t => String.eqb s t
  | _ => false
  end.

Definition includes (l : list string) (v : JsValue) : bool :=
  existsb (fun s => sameValueZeroStr s v) l.

(** [arr.forEach((x, index) => ...)] with the callback's effect on a local
    accumulator made explicit. *)
Fixpoint forEachFrom {A St : Type} (f : St → A → nat → St)
    (l : list A) (index : nat) (s : St) : St :=
  match l with
  | [] => s
  | x :: r => forEachFrom f r (S index) (f s x index)
  end.

Definition forEach {St : Type} (f : St → JsValue → nat → St)
    (v : JsValue) (s : St) : Exc St :=
  match v with
  | JArr l => Ok (forEachFrom f l 0 s)
  | _ => Throw (TypeError "forEach is not a function")
  end.

(** [arr.filter(p)] on a value. *)
Definition method_filter (p : JsValue → bool) (v : JsValue) : Exc (list JsValue) :=
  match v with
  | JArr l => Ok (List.filter p l)
  | _ => Throw (TypeError "filter is not a function")
  end.

(** [errors.push(e)]. *)
Definition push (errors : list string) (e : string) : list string :=
  errors ++ [e].

End Js.

Import Js.

(** ** server/src/utils/validation.js *)

Module Validation.

Record ValidationResult : Type := {
  isValid : bool;
  errors : list string
}.

Definition validStatuses : list string :=
  ["open"; "in-progress"; "resolved"; "closed"].

Definition validPriorities : list string :=
  ["low"; "medium"; "high"; "critical"].

(** The template literal [`Tag at index ${index} must be a string`]. *)
Definition tagError (index : nat) : string :=
  "Tag at index " +:+ pretty index +:+ " must be a string".

(** Title validation (lines 12-18). *)
Definition checkTitle (bugData : gmap string JsValue) (errors : list string)
    : Exc (list string) :=
  if negb (truthy (get bugData "title"))
     || negb (String.eqb (typeof (get bugData "title")) "string")
  then Ok (push errors "Title is required and must be a string")
  else
    t ← method_trim (get bugData "title");
    if String.length t =? 0
    then Ok (push errors "Title cannot be empty")
    else
      n ← prop_length (get bugData "title");
      if gt n 100
      then Ok (push errors "Title cannot exceed 100 characters")
      else Ok errors.

(** Description validation (lines 21-27). *)
Definition checkDescription (bugData : gmap string JsValue) (errors : list string)
    : Exc (list string) :=
  if negb (truthy (get bugData "description"))
     || negb (String.eqb (typeof (get bugData "description")) "string")
  then Ok (push errors "Description is required and must be a string")
  else
    t ← method_trim (get bugData "description");
    if String.length t =? 0
    then Ok (push errors "Description cannot be empty")
    else
      n ← prop_length (get bugData "description");
      if gt n 1000
      then Ok (push errors "Description cannot exceed 1000 characters")
      else Ok errors.

(** Status validation (lines 30-33). *)
Definition checkStatus (bugData : gmap string JsValue) (errors : list string)
    : Exc (list string) :=
  if notUndefined (get bugData "status")
     && negb (includes validStatuses (get bugData "status"))
  then Ok (push errors "Status must be one of: open, in-progress, resolved, closed")
  else Ok errors.

(** Priority validation (lines 36-39). *)
Definition checkPriority (bugData : gmap string JsValue) (errors : list string)
    : Exc (list string) :=
  if truthy (get bugData "priority")
     && negb (includes validPriorities (get bugData "priority"))
  then Ok (push errors "Priority must be one of: low, medium, high, critical")
  else Ok errors.

(** Reporter validation (lines 42-46). *)
Definition checkReporter (bugData : gmap string JsValue) (errors : list string)
    : Exc (list string) :=
  if negb (truthy (get bugData "reporter"))
     || negb (String.eqb (typeof (get bugData "reporter")) "string")
  then Ok (push errors "Reporter is required and must be a string")
  else
    t ← method_trim (get bugData "reporter");
    if String.length t =? 0
    then Ok (push errors "Reporter cannot be empty")
    else Ok errors.

(** Assignee validation (lines 49-51). *)
Definition checkAssignee (bugData : gmap string JsValue) (errors : list string)
    : Exc (list string) :=
  if truthy (get bugData "assignee")
     && negb (String.eqb (typeof (get bugData "assignee")) "string")
  then Ok (push errors "Assignee must be a string")
  else Ok errors.

(** Tags validation (lines 54-64). *)
Definition checkTags (bugData : gmap string JsValue) (errors : list string)
    : Exc (list string) :=
  if truthy (get bugData "tags")
  then
    if negb (isArray (get bugData "tags"))
    then Ok (push errors "Tags must be an array")
    else
      forEach
        (fun errors tag index =>
           if negb (String.eqb (typeof tag) "string")
           then push errors (tagError index)
           else errors)
        (get bugData "tags") errors
  else Ok errors.

Definition validateBugData (bugData : gmap string JsValue) : Exc ValidationResult :=
  let errors : list string := [] in
  errors ← checkTitle bugData errors;
  errors ← checkDescription bugData errors;
  errors ← checkStatus bugData errors;
  errors ← checkPriority bugData errors;
  errors ← checkReporter bugData errors;
  errors ← checkAssignee bugData errors;
  errors ← checkTags bugData errors;
  Ok {| isValid := length errors =? 0; errors := errors |}.

(** One iteration of the [forEach] over the trimmed fields (lines 81-85). *)
Definition trimField (sanitized : gmap string JsValue) (field : string)
    : Exc (gmap string JsValue) :=
  if truthy (get sanitized field)
     && String.eqb (typeof (get sanitized field)) "string"
  then
    t ← method_trim (get sanitized field);
    Ok (<[field := JStr t]> sanitized)
  else Ok sanitized.

Definition trimmedFields : list string :=
  ["title"; "description"; "reporter"; "assignee"].

(** The tag pipeline (lines 89-92): filter, map, filter. *)
Definition sanitizeTags (tags : JsValue) : Exc (list string) :=
  kept ← method_filter (fun tag => String.eqb (typeof tag) "string") tags;
  trimmed ← mapM method_trim kept;
  Ok (List.filter (fun tag => 0 <? String.length tag) trimmed).

Definition sanitizeBugData (bugData : gmap string JsValue)
    : Exc (gmap string JsValue) :=
  let sanitized := bugData in
  sanitized ← foldM trimField trimmedFields sanitized;
  if truthy (get sanitized "tags") && isArray (get sanitized "tags")
  then
    tags ← sanitizeTags (get sanitized "tags");
    Ok (<["tags" := JArr (JStr <$> tags)]> sanitized)
  else Ok sanitized.

(** The pattern [/^[0-9a-fA-F]{24}$/] (line 104): one character class,
    repeated a fixed number of times, between the two anchors. Without the
    [m] flag [$] only matches at the very end of the input. *)
Definition inRange (lo hi c : ascii) : bool :=
  ((N_of_ascii lo <=? N_of_ascii c)
   && (N_of_ascii c <=? N_of_ascii hi))%N.

Definition hexClass (c : ascii) : bool :=
  (inRange "0" "9" c || inRange "a" "f" c || inRange "A" "F" c)%char.

(** [cls{n}] at the head of [s]: what is left of the input. *)
Fixpoint matchRepeat (cls : ascii → bool) (n : nat) (s : string)
    : option string :=
  match n with
  | 0 => Some s
  | S n' =>
      match s with
      | "" => None
      | String c r => if cls c then matchRepeat cls n' r else None
      end
  end.

Definition isValidObjectId (id : string) : bool :=
  match matchRepeat hexClass 24 id with
  | Some "" => true
  | _ => false
  end.

End Validation.

Import Validation.


(** ** server/src/routes/bugs.js

    A handler either answers or awaits one Record Store operation and goes
    on with its outcome; the store itself (the Bug model) is outside the
    repository's logic and is left abstract. *)

Module Routes.

Record Response : Type := {
  status : nat;
  body : JsValue
}.

Inductive DbOp : Type :=
  | Save (doc : gmap string JsValue)
  | FindById (id : string)
  | FindByIdAndUpdate (id : string) (update : gmap string JsValue)
  | FindByIdAndDelete (id : string).

(** What an awaited store call yields: a document, [null], or a rejection
    (which the handler's [catch] receives). *)
Inductive DbResult : Type :=
  | DbDoc (doc : gmap string JsValue)
  | DbNull
  | DbRejected.

Inductive Handler : Type :=
  | Respond (r : Response)
  | Await (op : DbOp) (k : DbResult → Handler).

(** [res.status(code).json({ error: msg })]. *)
Definition errorJson (code : nat) (msg : string) : Handler :=
  Respond {| status := code; body := JObj {[ "error" := JStr msg ]} |}.

(** [res.json(x)]. *)
Definition json (x : JsValue) : Handler :=
  Respond {| status := 200; body := x |}.

(** The [catch] branch shared by all handlers. *)
Definition internalError : Handler := errorJson 500 "Internal server error".

Definition validationFailed (errors : list string) : Handler :=
  Respond {| status := 400;
             body := JObj {[ "error" := JStr "Validation failed";
                             "details" := JArr (JStr <$> errors) ]} |}.

(** GET /api/bugs/:id (lines 44-63). *)
Definition getById (id : string) : Handler :=
  if negb (isValidObjectId id)
  then errorJson 400 "Invalid bug ID format"
  else
    Await (FindById id) (fun bug =>
      match bug with
      | DbRejected => internalError
      | DbNull => errorJson 404 "Bug not found"
      | DbDoc bug => json (JObj bug)
      end).

(** POST /api/bugs (lines 66-90). *)
Definition post (reqBody : gmap string JsValue) : Handler :=
  match sanitizeBugData reqBody with
  | Throw _ => internalError
  | Ok sanitizedData =>
      match validateBugData sanitizedData with
      | Throw _ => internalError
      | Ok validation =>
          if negb (isValid validation)
          then validationFailed (errors validation)
          else
            Await (Save sanitizedData) (fun savedBug =>
              match savedBug with
              | DbDoc savedBug =>
                  Respond {| status := 201; body := JObj savedBug |}
              | _ => internalError
              end)
      end
  end.

(** The condition of line 105. *)
Definition needsFullValidation (sanitizedData : gmap string JsValue) : bool :=
  (1 <? size sanitizedData) || negb (truthy (get sanitizedData "status")).

(** Lines 104-107; the initial [{ isValid: true }] carries no [errors], and
    none is read from it. *)
Definition putValidation (sanitizedData : gmap string JsValue)
    : Exc ValidationResult :=
  let validation := {| isValid := true; errors := [] |} in
  if needsFullValidation sanitizedData
  then validateBugData sanitizedData
  else Ok validation.

(** PUT /api/bugs/:id (lines 93-133); [now] is [new Date()]. *)
Definition put (now : JsValue) (id : string) (reqBody : gmap string JsValue)
    : Handler :=
  if negb (isValidObjectId id)
  then errorJson 400 "Invalid bug ID format"
  else
    match sanitizeBugData reqBody with
    | Throw _ => internalError
    | Ok sanitizedData =>
        match putValidation sanitizedData with
        | Throw _ => internalError
        | Ok validation =>
            if negb (isValid validation)
            then validationFailed (errors validation)
            else
              Await (FindByIdAndUpdate id (<["updatedAt" := now]> sanitizedData))
                (fun updatedBug =>
                   match updatedBug with
                   | DbRejected => internalError
                   | DbNull => errorJson 404 "Bug not found"
                   | DbDoc updatedBug => json (JObj updatedBug)
                   end)
        end
    end.

(** DELETE /api/bugs/:id (lines 136-156). *)
Definition delete (id : string) : Handler :=
  if negb (isValidObjectId id)
  then errorJson 400 "Invalid bug ID format"
  else
    Await (FindByIdAndDelete id) (fun deletedBug =>
      match deletedBug with
      | DbRejected => internalError
      | DbNull => errorJson 404 "Bug not found"
      | DbDoc _ =>
          json (JObj {[ "message" := JStr "Bug deleted successfully" ]})
      end).

(** Running a handler against a Record Store: the response, the store
    operations performed in order, and the store afterwards. *)
Section Run.
Context {Store : Type}.
Variable exec : DbOp → Store → DbResult * Store.

Fixpoint run (h : Handler) (db : Store) : Response * list DbOp * Store :=
  match h with
  | Respond r => (r, [], db)
  | Await op k =>
      let '(res, db') := exec op db in
      let '(r, ops, db'') := run (k res) db' in
      (r, op :: ops, db'')
  end.
End Run.

End Routes.

(** ** client/src/components/BugList: the filtering effect *)

Module BugList.

Record Bug : Type := {
  title : string;
  description : string;
  status : string;
  priority : string;
  reporter : string;
  assignee : option string;
  tags : option (list string)
}.

Record FilterSpec : Type := {
  filter_status : string;
  filter_priority : string;
  filter_search : string
}.

(** The [bugs] prop and the two pieces of component state. *)
Record State : Type := {
  bugs : list Bug;
  filter : FilterSpec;
  filteredBugs : list Bug
}.

(** Truthiness of a string. *)
Definition nonEmpty (s : string) : bool := negb (String.eqb s "").

(** String.prototype.toLowerCase on code units below 256: A-Z and the
    Latin-1 capitals (all of 0xC0-0xDE but the multiplication sign). *)
Definition toLowerUnit (c : ascii) : ascii :=
  let n := N_of_ascii c in
  if ((65 <=? n) && (n <=? 90)
      || (192 <=? n) && (n <=? 222) && negb (n =? 215))%N
  then ascii_of_N (n + 32)
  else c.

Fixpoint toLowerCase (s : string) : string :=
  match s with
  | "" => ""
  | String c r => String (toLowerUnit c) (toLowerCase r)
  end.

(** [s.startsWith(t)] and [s.includes(t)]. *)
Fixpoint startsWith (s t : string) : bool :=
  match t, s with
  | "", _ => true
  | String _ _, "" => false
  | String c t', String d s' => Ascii.eqb c d && startsWith s' t'
  end.

Fixpoint includes (s t : string) : bool :=
  startsWith s t
  || match s with
     | "" => false
     | String _ r => includes r t
     end.

(** The callback of the search filter (lines 487-493 of the component). *)
Definition searchMatches (searchTerm : string) (bug : Bug) : bool :=
  includes (toLowerCase (title bug)) searchTerm
  || includes (toLowerCase (description bug)) searchTerm
  || includes (toLowerCase (reporter bug)) searchTerm
  || match assignee bug with
     | Some a => nonEmpty a && includes (toLowerCase a) searchTerm
     | None => false
     end
  || match tags bug with
     | Some l => existsb (fun tag => includes (toLowerCase tag) searchTerm) l
     | None => false
     end.

(** The body of the effect: recompute [filteredBugs] from [bugs] and
    [filter]. *)
Definition applyFilters (st : State) : State :=
  let filtered := bugs st in
  let filtered :=
    if nonEmpty (filter_status (filter st))
    then List.filter (fun bug => String.eqb (status bug) (filter_status (filter st))) filtered
    else filtered in
  let filtered :=
    if nonEmpty (filter_priority (filter st))
    then List.filter (fun bug => String.eqb (priority bug) (filter_priority (filter st))) filtered
    else filtered in
  let filtered :=
    if nonEmpty (filter_search (filter st))
    then
      let searchTerm := toLowerCase (filter_search (filter st)) in
      List.filter (searchMatches searchTerm) filtered
    else filtered in
  {| bugs := bugs st; filter := filter st; filteredBugs := filtered |}.

End BugList.

(** * Vocabulary of the specification *)

Module Spec.

(** The messages of the validator, grouped by the field they are about. *)
Definition titleRequired : string := "Title is required and must be a string".
Definition titleEmpty : string := "Title cannot be empty".
Definition titleTooLong : string := "Title cannot exceed 100 characters".
Definition titleMessages : list string :=
  [titleRequired; titleEmpty; titleTooLong].

Definition descriptionRequired : string :=
  "Description is required and must be a string".
Definition descriptionEmpty : string := "Description cannot be empty".
Definition descriptionTooLong : string :=
  "Description cannot exceed 1000 characters".
Definition descriptionMessages : list string :=
  [descriptionRequired; descriptionEmpty; descriptionTooLong].

Definition statusMessage : string :=
  "Status must be one of: open, in-progress, resolved, closed".
Definition priorityMessage : string :=
  "Priority must be one of: low, medium, high, critical".

Definition reporterRequired : string :=
  "Reporter is required and must be a string".
Definition reporterEmpty : string := "Reporter cannot be empty".
Definition reporterMessages : list string := [reporterRequired; reporterEmpty].

Definition assigneeMessage : string := "Assignee must be a string".
Definition tagsNotArray : string := "Tags must be an array".

(** Every message that does not cite a tag index. *)
Definition fixedMessages : list string :=
  titleMessages ++ descriptionMessages ++ [statusMessage; priorityMessage]
  ++ reporterMessages ++ [assigneeMessage; tagsNotArray].

(** A value is text. *)
Definition isText (v : JsValue) : bool :=
  match v with JStr _ => true | _ => false end.

Definition asText (v : JsValue) : option string :=
  match v with JStr s => Some s | _ => None end.

(** The errors each block of the validator contributes, read off the value
    of its field. *)
Definition titleErrors (bugData : gmap string JsValue) : list string :=
  match get bugData "title" with
  | JStr s =>
      if decide (s = "") then [titleRequired]
      else if decide (trim s = "") then [titleEmpty]
      else if decide (100 < String.length s) then [titleTooLong]
      else []
  | _ => [titleRequired]
  end.

Definition descriptionErrors (bugData : gmap string JsValue) : list string :=
  match get bugData "description" with
  | JStr s =>
      if decide (s = "") then [descriptionRequired]
      else if decide (trim s = "") then [descriptionEmpty]
      else if decide (1000 < String.length s) then [descriptionTooLong]
      else []
  | _ => [descriptionRequired]
  end.

Definition statusErrors (bugData : gmap string JsValue) : list string :=
  match get bugData "status" with
  | JUndefined => []
  | JStr s => if decide (s ∈ validStatuses) then [] else [statusMessage]
  | _ => [statusMessage]
  end.

Definition priorityErrors (bugData : gmap string JsValue) : list string :=
  match get bugData "priority" with
  | JStr s =>
      if decide (s = "") then []
      else if decide (s ∈ validPriorities) then [] else [priorityMessage]
  | v => if truthy v then [priorityMessage] else []
  end.

Definition reporterErrors (bugData : gmap string JsValue) : list string :=
  match get bugData "reporter" with
  | JStr s =>
      if decide (s = "") then [reporterRequired]
      else if decide (trim s = "") then [reporterEmpty]
      else []
  | _ => [reporterRequired]
  end.

Definition assigneeErrors (bugData : gmap string JsValue) : list string :=
  match get bugData "assignee" with
  | JStr _ => []
  | v => if truthy v then [assigneeMessage] else []
  end.

(** The positions of an array that do not hold text, in ascending order. *)
Definition nonTextIndices (l : list JsValue) : list nat :=
  List.filter
    (fun i => match l !! i with Some v => negb (isText v) | None => false end)
    (seq 0 (length l)).

Definition tagsErrors (bugData : gmap string JsValue) : list string :=
  match get bugData "tags" with
  | JArr l => tagError <$> nonTextIndices l
  | v => if truthy v then [tagsNotArray] else []
  end.

(** The sanitizer's tag rule in the specification's words: drop what is not
    text, trim the rest, drop what is then empty. *)
Definition specTags (tags : list JsValue) : list string :=
  filter (λ t, t ≠ "") (trim <$> omap asText tags).

Definition trimValue (v : JsValue) : JsValue :=
  match v with JStr s => JStr (trim s) | _ => v end.

Definition cleanTags (v : JsValue) : JsValue :=
  match v with JArr l => JArr (JStr <$> specTags l) | _ => v end.

(** The sanitizer's output as a map transformation. *)
Definition sanitized (bugData : gmap string JsValue) : gmap string JsValue :=
  alter cleanTags "tags"
    (alter trimValue "assignee"
       (alter trimValue "reporter"
          (alter trimValue "description"
             (alter trimValue "title" bugData)))).

(** The hexadecimal alphabet. *)
Definition hexAlphabet : list ascii :=
  String.list_ascii_of_string "0123456789abcdefABCDEF".

(** [t] occurs in [s]. *)
Definition isSubstring (t s : string) : Prop :=
  ∃ pre post, s = pre +:+ t +:+ post.

(** The texts of a record the search looks into. *)
Definition searchable (b : BugList.Bug) : list string :=
  [BugList.title b; BugList.description b; BugList.reporter b]
  ++ option_list (BugList.assignee b)
  ++ default [] (BugList.tags b).

(** A record satisfies a filter specification: every non-empty criterion
    holds. *)
Definition satisfies (f : BugList.FilterSpec) (b : BugList.Bug) : Prop :=
  (BugList.filter_status f = "" ∨ BugList.status b = BugList.filter_status f)
  ∧ (BugList.filter_priority f = ""
     ∨ BugList.priority b = BugList.filter_priority f)
  ∧ (BugList.filter_search f = ""
     ∨ ∃ text, text ∈ searchable b
         ∧ isSubstring (BugList.toLowerCase (BugList.filter_search f))
                       (BugList.toLowerCase text)).

(** One predicate for the three successive filters of the effect. *)
Definition keeps (f : BugList.FilterSpec) (b : BugList.Bug) : bool :=
  (negb (BugList.nonEmpty (BugList.filter_status f))
   || String.eqb (BugList.status b) (BugList.filter_status f))
  && (negb (BugList.nonEmpty (BugList.filter_priority f))
      || String.eqb (BugList.priority b) (BugList.filter_priority f))
  && (negb (BugList.nonEmpty (BugList.filter_search f))
      || BugList.searchMatches (BugList.toLowerCase (BugList.filter_search f)) b).

(** The answer to a malformed identifier. *)
Definition invalidId : Routes.Response :=
  {| Routes.status := 400;
     Routes.body := JObj {[ "error" := JStr "Invalid bug ID format" ]} |}.

(** The filtered list the component shows for the given records and filter. *)
Definition shown (f : BugList.FilterSpec) (l : list BugList.Bug)
    : list BugList.Bug :=
  BugList.filteredBugs
    (BugList.applyFilters
       {| BugList.bugs := l; BugList.filter := f; BugList.filteredBugs := l |}).

End Spec.

Import Spec.

(** * Sample inputs, taken from the repository's tests *)

Module Samples.

(** ['a'.repeat(n)]. *)
Fixpoint repeatA (n : nat) : string :=
  match n with
  | 0 => ""
  | S n' => String "a" (repeatA n')
  end.

(** A title of 101 characters, everything else valid. *)
Definition longTitleBug : gmap string JsValue :=
  {[ "title" := JStr (repeatA 101);
     "description" := JStr "This is a test bug description";
     "reporter" := JStr "John Doe" ]}.

(** The empty string as title, everything else valid. *)
Definition emptyTitleBug : gmap string JsValue :=
  {[ "title" := JStr "";
     "description" := JStr "Valid description";
     "reporter" := JStr "Valid reporter" ]}.

(** A blank title, everything else valid. *)
Definition blankTitleBug : gmap string JsValue :=
  {[ "title" := JStr "   ";
     "description" := JStr "This is a test bug description";
     "reporter" := JStr "John Doe" ]}.

Definition invalidStatusBug : gmap string JsValue :=
  {[ "title" := JStr "Test Bug";
     "description" := JStr "This is a test bug description";
     "status" := JStr "invalid-status";
     "priority" := JStr "";
     "reporter" := JStr "John Doe" ]}.

Definition invalidPriorityBug : gmap string JsValue :=
  {[ "title" := JStr "Test Bug";
     "description" := JStr "This is a test bug description";
     "priority" := JStr "invalid-priority";
     "reporter" := JStr "John Doe" ]}.

Definition mixedTags : list JsValue :=
  [JStr "  tag1  "; JStr ""; JStr "  tag2  "; JNum 123].

Definition mixedTagsBug : gmap string JsValue :=
  {[ "title" := JStr "Test Bug";
     "description" := JStr "Test Description";
     "reporter" := JStr "John Doe";
     "tags" := JArr mixedTags ]}.

(** The body of the integration test "should trim and sanitize input data". *)
Definition untrimmedBug : gmap string JsValue :=
  {[ "title" := JStr "  Test Bug  ";
     "description" := JStr "  Test Description  ";
     "reporter" := JStr "  John Doe  ";
     "tags" := JArr [JStr "  tag1  "; JStr ""; JStr "  tag2  "] ]}.

Definition blankFieldsBug : gmap string JsValue :=
  {[ "title" := JStr "   ";
     "description" := JStr "  ";
     "reporter" := JStr " " ]}.

(** Identifiers. *)
Definition validId : string := "507f1f77bcf86cd799439011".
Definition upperCaseId : string := "507F1F77BCF86CD799439011".
Definition shortId : string := "507f1f77bcf86cd79943901".
Definition malformedId : string := "invalid-id".

(** A timestamp standing for [new Date()]. *)
Definition sampleNow : JsValue := JStr "2024-01-01T00:00:00.000Z".

(** Request bodies that carry nothing but [status]. *)
Definition statusOnlyBody : gmap string JsValue :=
  {[ "status" := JStr "resolved" ]}.

Definition emptyStatusBody : gmap string JsValue :=
  {[ "status" := JStr "" ]}.

(** The records of the client's filtering tests. *)
Definition frontendBug : BugList.Bug :=
  {| BugList.title := "Frontend Bug"; BugList.description := "UI issue";
     BugList.status := "open"; BugList.priority := "high";
     BugList.reporter := "Alice"; BugList.assignee := None;
     BugList.tags := Some ["frontend"; "ui"] |}.

Definition backendBug : BugList.Bug :=
  {| BugList.title := "Backend Bug"; BugList.description := "API error";
     BugList.status := "resolved"; BugList.priority := "medium";
     BugList.reporter := "Bob"; BugList.assignee := None;
     BugList.tags := Some ["backend"; "api"] |}.

Definition databaseBug : BugList.Bug :=
  {| BugList.title := "Database Bug";
     BugList.description := "Connection issue";
     BugList.status := "open"; BugList.priority := "critical";
     BugList.reporter := "Charlie"; BugList.assignee := None;
     BugList.tags := Some ["database"] |}.

Definition mockBugs : list BugList.Bug :=
  [frontendBug; backendBug; databaseBug].

End Samples.

Import Samples.

(** * More of the client: the form, the list updates, the request body *)

(** ** client/src/components/BugForm *)

Module BugForm.

(** The controlled inputs: six texts and the tag list. *)
Record FormData : Type := {
  title : string;
  description : string;
  status : string;
  priority : string;
  reporter : string;
  assignee : string;
  tags : list string
}.

(** The three pieces of component state. *)
Record State : Type := {
  formData : FormData;
  tagInput : string;
  errors : gmap string string
}.

(** [{ ...prev, tags: newTags }]. *)
Definition withTags (prev : FormData) (newTags : list string) : FormData :=
  {| title := title prev; description := description prev;
     status := status prev; priority := priority prev;
     reporter := reporter prev; assignee := assignee prev;
     tags := newTags |}.

(** [tags.includes(tag)] on an array of strings. *)
Definition tagsInclude (l : list string) (tag : string) : bool :=
  existsb (fun t => String.eqb t tag) l.

(** handleAddTag. *)
Definition handleAddTag (st : State) : State :=
  if BugList.nonEmpty (trim (tagInput st))
     && negb (tagsInclude (tags (formData st)) (trim (tagInput st)))
  then
    {| formData :=
         withTags (formData st) (tags (formData st) ++ [trim (tagInput st)]);
       tagInput := "";
       errors := errors st |}
  else st.

(** handleRemoveTag. *)
Definition handleRemoveTag (tagToRemove : string) (st : State) : State :=
  {| formData :=
       withTags (formData st)
         (List.filter (fun tag => negb (String.eqb tag tagToRemove))
            (tags (formData st)));
     tagInput := tagInput st;
     errors := errors st |}.

(** validateForm: the new [errors] object and the verdict. *)
Definition validateForm (st : State) : State * bool :=
  let newErrors : gmap string string := ∅ in
  let newErrors :=
    if negb (BugList.nonEmpty (trim (title (formData st))))
    then <["title" := "Title is required"]> newErrors
    else if 100 <? String.length (title (formData st))
    then <["title" := "Title cannot exceed 100 characters"]> newErrors
    else newErrors in
  let newErrors :=
    if negb (BugList.nonEmpty (trim (description (formData st))))
    then <["description" := "Description is required"]> newErrors
    else if 1000 <? String.length (description (formData st))
    then <["description" := "Description cannot exceed 1000 characters"]> newErrors
    else newErrors in
  let newErrors :=
    if negb (BugList.nonEmpty (trim (reporter (formData st))))
    then <["reporter" := "Reporter is required"]> newErrors
    else newErrors in
  ({| formData := formData st; tagInput := tagInput st; errors := newErrors |},
   size newErrors =? 0).

(** handleSubmit: the state afterwards and, when the form is valid, the
    data handed to [onSubmit]. *)
Definition handleSubmit (st : State) : State * option FormData :=
  let '(st', ok) := validateForm st in
  if negb ok then (st', None) else (st', Some (formData st')).

End BugForm.

(** ** client/src/services/api.js: the body of createBug and updateBug

    [JSON.stringify(bugData)] on the form's data, as [express.json()] reads
    it back: an object with the seven keys of the form. *)

Module Api.

Definition body (bugData : BugForm.FormData) : gmap string JsValue :=
  {[ "title" := JStr (BugForm.title bugData);
     "description" := JStr (BugForm.description bugData);
     "status" := JStr (BugForm.status bugData);
     "priority" := JStr (BugForm.priority bugData);
     "reporter" := JStr (BugForm.reporter bugData);
     "assignee" := JStr (BugForm.assignee bugData);
     "tags" := JArr (JStr <$> BugForm.tags bugData) ]}.

End Api.

(** ** client/src/App.js: the updates of the [bugs] state

    App only ever reads the [_id] of a record. *)

Module App.

Section Updates.
Context {Rec : Type}.
Variable _id : Rec → string.

(** handleCreateBug: [setBugs(prev => [newBug, ...prev])]. *)
Definition created (newBug : Rec) (prev : list Rec) : list Rec :=
  newBug :: prev.

(** handleUpdateBug and handleStatusChange:
    [prev.map(bug => bug._id === id ? updatedBug : bug)]. *)
Definition updated (id : string) (updatedBug : Rec) (prev : list Rec)
    : list Rec :=
  List.map (fun bug => if String.eqb (_id bug) id then updatedBug else bug) prev.

(** handleDeleteBug: [prev.filter(bug => bug._id !== bugId)]. *)
Definition deleted (bugId : string) (prev : list Rec) : list Rec :=
  List.filter (fun bug => negb (String.eqb (_id bug) bugId)) prev.

End Updates.

End App.

(** ** client/src/components/BugList: the handlers and what is rendered *)

Module BugListView.

(** handleFilterChange: [setFilter(prev => ({ ...prev, [name]: value }))].
    The three inputs that call it are named status, priority and search;
    under any other name the property written is one nothing reads. *)
Definition handleFilterChange (name value : string) (st : BugList.State)
    : BugList.State :=
  let prev := BugList.filter st in
  {| BugList.bugs := BugList.bugs st;
     BugList.filter :=
       {| BugList.filter_status :=
            if String.eqb name "status" then value
            else BugList.filter_status prev;
          BugList.filter_priority :=
            if String.eqb name "priority" then value
            else BugList.filter_priority prev;
          BugList.filter_search :=
            if String.eqb name "search" then value
            else BugList.filter_search prev |};
     BugList.filteredBugs := BugList.filteredBugs st |}.

(** clearFilters. *)
Definition clearFilters (st : BugList.State) : BugList.State :=
  {| BugList.bugs := BugList.bugs st;
     BugList.filter :=
       {| BugList.filter_status := ""; BugList.filter_priority := "";
          BugList.filter_search := "" |};
     BugList.filteredBugs := BugList.filteredBugs st |}.

(** What the component returns: the error panel, or the page with the
    count of the heading, the Clear Filters button shown or not, and the
    content below. *)
Inductive Content : Type :=
  | Loading
  | NoBugsYet
  | NoMatch
  | Items (l : list BugList.Bug).

Inductive Rendered : Type :=
  | ErrorPanel (error : string)
  | Page (count : nat) (clearButton : bool) (content : Content).

(** The page below the error check. *)
Definition page (isLoading : bool) (st : BugList.State) : Rendered :=
  Page (length (BugList.filteredBugs st))
    (BugList.nonEmpty (BugList.filter_status (BugList.filter st))
     || BugList.nonEmpty (BugList.filter_priority (BugList.filter st))
     || BugList.nonEmpty (BugList.filter_search (BugList.filter st)))
    (if isLoading then Loading
     else if length (BugList.filteredBugs st) =? 0
     then if length (BugList.bugs st) =? 0 then NoBugsYet else NoMatch
     else Items (BugList.filteredBugs st)).

(** The component's return value; [error] is the prop, absent or a text. *)
Definition render (error : option string) (isLoading : bool)
    (st : BugList.State) : Rendered :=
  match error with
  | Some e => if BugList.nonEmpty e then ErrorPanel e else page isLoading st
  | None => page isLoading st
  end.

End BugListView.

(** * Vocabulary of the further properties *)

Module Laws.

(** A value is text that is not blank. *)
Definition nonBlankText (v : JsValue) : Prop :=
  ∃ s, v = JStr s ∧ trim s ≠ "".

(** A value is text of at most [limit] characters. *)
Definition atMost (limit : nat) (v : JsValue) : Prop :=
  ∀ s, v = JStr s → String.length s ≤ limit.

(** What the validator accepts, field by field. *)
Definition acceptable (bugData : gmap string JsValue) : Prop :=
  (nonBlankText (get bugData "title") ∧ atMost 100 (get bugData "title"))
  ∧ (nonBlankText (get bugData "description")
     ∧ atMost 1000 (get bugData "description"))
  ∧ (get bugData "status" = JUndefined
     ∨ ∃ s, get bugData "status" = JStr s ∧ s ∈ validStatuses)
  ∧ (truthy (get bugData "priority") = false
     ∨ ∃ s, get bugData "priority" = JStr s ∧ s ∈ validPriorities)
  ∧ nonBlankText (get bugData "reporter")
  ∧ (truthy (get bugData "assignee") = false
     ∨ isText (get bugData "assignee") = true)
  ∧ (truthy (get bugData "tags") = false
     ∨ ∃ l, get bugData "tags" = JArr l ∧ Forall (λ v, isText v = true) l).

(** A tag as the sanitizer and the form leave it: not empty, nothing to
    trim. *)
Definition cleanTag (t : string) : Prop := t ≠ "" ∧ trim t = t.

(** The record a store operation is about. *)
Definition target (op : Routes.DbOp) : option string :=
  match op with
  | Routes.Save _ => None
  | Routes.FindById id => Some id
  | Routes.FindByIdAndUpdate id _ => Some id
  | Routes.FindByIdAndDelete id => Some id
  end.

(** The status codes the handlers use. *)
Definition statusCodes : list nat := [200; 201; 400; 404; 500].

(** A response body of the shape [{ error: <non-empty text>, ... }]. *)
Definition errorBody (v : JsValue) : Prop :=
  ∃ m msg, v = JObj m ∧ m !! "error" = Some (JStr msg) ∧ msg ≠ "".

(** The response and the store operations of a run. *)
Definition response {Store : Type}
    (exec : Routes.DbOp → Store → Routes.DbResult * Store)
    (h : Routes.Handler) (db : Store) : Routes.Response :=
  (Routes.run exec h db).1.1.

Definition operations {Store : Type}
    (exec : Routes.DbOp → Store → Routes.DbResult * Store)
    (h : Routes.Handler) (db : Store) : list Routes.DbOp :=
  (Routes.run exec h db).1.2.

(** A filter specification with another search term. *)
Definition withSearch (f : BugList.FilterSpec) (term : string)
    : BugList.FilterSpec :=
  {| BugList.filter_status := BugList.filter_status f;
     BugList.filter_priority := BugList.filter_priority f;
     BugList.filter_search := term |}.

End Laws.

Import Laws.

(** * Further sample inputs *)

Module MoreSamples.

(** A form filled in with surrounding blanks, as a user may type it. *)
Definition filledForm : BugForm.FormData :=
  {| BugForm.title := "  Login fails  ";
     BugForm.description := "Cannot log in with a valid password";
     BugForm.status := "open";
     BugForm.priority := "medium";
     BugForm.reporter := "Alice ";
     BugForm.assignee := "";
     BugForm.tags := ["auth"; "ui"] |}.

Definition filledState : BugForm.State :=
  {| BugForm.formData := filledForm;
     BugForm.tagInput := "  backend ";
     BugForm.errors := ∅ |}.

(** A valid record whose texts carry surrounding blanks. *)
Definition paddedBug : gmap string JsValue :=
  {[ "title" := JStr "  Test Bug  ";
     "description" := JStr " Test Description";
     "status" := JStr "open";
     "reporter" := JStr "John Doe  ";
     "tags" := JArr [JStr " a "; JStr "b"] ]}.

(** Two fields of an update, without the required ones. *)
Definition partialUpdate : gmap string JsValue :=
  {[ "status" := JStr "resolved"; "priority" := JStr "high" ]}.

(** A store that knows no record. *)
Definition emptyStore (op : Routes.DbOp) (db : unit)
    : Routes.DbResult * unit :=
  (Routes.DbNull, db).

End MoreSamples.

Import MoreSamples.

(** * Properties *)

(** ** Facts about the primitive operations *)

Section StringFacts.

Lemma length_zero_iff (s : string) : (String.length s =? 0) = String.eqb s "".
Proof. by destruct s. Qed.

Lemma eqb_empty_true (s : string) : String.eqb s "" = true ↔ s = "".
Proof. destruct s; simpl; split; congruence. Qed.

Lemma trimStart_head (s : string) :
  trimStart s = "" ∨ ∃ c r, trimStart s = String c r ∧ isWhiteSpace c = false.
Proof.
  induction s as [|c r IH]; simpl; [by left|].
  destruct (isWhiteSpace c) eqn:Hc; [done|].
  right. by exists c, r.
Qed.

Lemma trimEnd_cons (c c' : ascii) (r r' : string) :
  trimEnd r = String c' r' → trimEnd (String c r) = String c (String c' r').
Proof. intros H. simpl. by rewrite H. Qed.

Lemma trimEnd_idem (s : string) : trimEnd (trimEnd s) = trimEnd s.
Proof.
  induction s as [|c r IH]; simpl; [done|].
  destruct (trimEnd r) as [|c' r'] eqn:Hr.
  - destruct (isWhiteSpace c) eqn:Hc; simpl; [done|]. by rewrite Hc.
  - by apply trimEnd_cons.
Qed.

Lemma trimEnd_keeps_head (c : ascii) (r : string) :
  isWhiteSpace c = false → ∃ r', trimEnd (String c r) = String c r'.
Proof.
  intros Hc. simpl. destruct (trimEnd r) as [|c' r'']; rewrite ?Hc; eauto.
Qed.

(** Trimming twice is trimming once. *)
Lemma trim_idem (s : string) : trim (trim s) = trim s.
Proof.
  unfold trim. destruct (trimStart_head s) as [->|(c & r & -> & Hc)]; [done|].
  destruct (trimEnd_keeps_head c r Hc) as [r' Hr'].
  assert (trimStart (trimEnd (String c r)) = trimEnd (String c r)) as ->.
  { rewrite Hr'. simpl. by rewrite Hc. }
  apply trimEnd_idem.
Qed.

Lemma trim_empty : trim "" = "".
Proof. done. Qed.

End StringFacts.

(** ** The validator, block by block *)

Section ValidatorBlocks.

Implicit Types (bugData : gmap string JsValue) (errors : list string).

#[local] Arguments Js.includes : simpl never.

Local Ltac block field :=
  intros; unfold push;
  destruct (get _ field) as [| |b|q|s|l|m] eqn:Hfield; simpl;
  rewrite ?orb_true_r, ?orb_false_r, ?andb_true_r, ?andb_false_r, ?negb_involutive,
    ?app_nil_r;
  try done.

Lemma checkTitle_app bugData errors :
  checkTitle bugData errors = Ok (errors ++ titleErrors bugData).
Proof.
  unfold checkTitle, titleErrors. block "title".
  destruct (decide (s = "")) as [->|Hs]; [done|].
  assert (String.eqb s "" = false) as -> by by apply String.eqb_neq.
  simpl. rewrite length_zero_iff.
  destruct (decide (trim s = "")) as [->|Ht]; [done|].
  assert (String.eqb (trim s) "" = false) as -> by by apply String.eqb_neq.
  simpl. destruct (decide (100 < String.length s)) as [Hl|Hl].
  - by apply Nat.ltb_lt in Hl as ->.
  - apply Nat.ltb_nlt in Hl as ->. by rewrite app_nil_r.
Qed.

Lemma checkDescription_app bugData errors :
  checkDescription bugData errors = Ok (errors ++ descriptionErrors bugData).
Proof.
  unfold checkDescription, descriptionErrors. block "description".
  destruct (decide (s = "")) as [->|Hs]; [done|].
  assert (String.eqb s "" = false) as -> by by apply String.eqb_neq.
  simpl. rewrite length_zero_iff.
  destruct (decide (trim s = "")) as [->|Ht]; [done|].
  assert (String.eqb (trim s) "" = false) as -> by by apply String.eqb_neq.
  simpl. destruct (decide (1000 < String.length s)) as [Hl|Hl].
  - by apply Nat.ltb_lt in Hl as ->.
  - apply Nat.ltb_nlt in Hl as ->. by rewrite app_nil_r.
Qed.

Lemma includes_elem_of (l : list string) (s : string) :
  Js.includes l (JStr s) = true ↔ s ∈ l.
Proof.
  unfold Js.includes. rewrite existsb_exists. split.
  - intros (x & Hx%list_elem_of_In & Heq). simpl in Heq.
    by apply String.eqb_eq in Heq as <-.
  - intros Hs. exists s. split; [by apply list_elem_of_In|].
    simpl. apply String.eqb_refl.
Qed.

Lemma includes_non_text (l : list string) (v : JsValue) :
  isText v = false → Js.includes l v = false.
Proof.
  intros Hv. unfold Js.includes. induction l as [|x l IH]; [done|].
  simpl. rewrite IH. by destruct v.
Qed.

Lemma checkStatus_app bugData errors :
  checkStatus bugData errors = Ok (errors ++ statusErrors bugData).
Proof.
  unfold checkStatus, statusErrors. block "status";
    try by rewrite includes_non_text.
  destruct (decide (s ∈ validStatuses)) as [Hs|Hs].
  - apply includes_elem_of in Hs as ->. simpl. by rewrite app_nil_r.
  - destruct (Js.includes validStatuses (JStr s)) eqn:Hi; [|done].
    by apply includes_elem_of in Hi.
Qed.

Lemma checkPriority_app bugData errors :
  checkPriority bugData errors = Ok (errors ++ priorityErrors bugData).
Proof.
  unfold checkPriority, priorityErrors. block "priority".
  - destruct b; simpl; by rewrite ?app_nil_r.
  - destruct (negb _); simpl; by rewrite ?app_nil_r.
  - destruct (decide (s = "")) as [->|Hs]; [simpl; by rewrite app_nil_r|].
    assert (String.eqb s "" = false) as -> by by apply String.eqb_neq.
    simpl. destruct (decide (s ∈ validPriorities)) as [Hp|Hp].
    + apply includes_elem_of in Hp as ->. simpl. by rewrite app_nil_r.
    + destruct (Js.includes validPriorities (JStr s)) eqn:Hi; [|done].
      by apply includes_elem_of in Hi.
Qed.

Lemma checkReporter_app bugData errors :
  checkReporter bugData errors = Ok (errors ++ reporterErrors bugData).
Proof.
  unfold checkReporter, reporterErrors. block "reporter".
  destruct (decide (s = "")) as [->|Hs]; [done|].
  assert (String.eqb s "" = false) as -> by by apply String.eqb_neq.
  simpl. rewrite length_zero_iff.
  destruct (decide (trim s = "")) as [->|Ht]; [done|].
  assert (String.eqb (trim s) "" = false) as -> by by apply String.eqb_neq.
  by rewrite app_nil_r.
Qed.

Lemma checkAssignee_app bugData errors :
  checkAssignee bugData errors = Ok (errors ++ assigneeErrors bugData).
Proof.
  unfold checkAssignee, assigneeErrors. block "assignee".
  - destruct b; simpl; by rewrite ?app_nil_r.
  - destruct (negb _); simpl; by rewrite ?app_nil_r.
Qed.

End ValidatorBlocks.

Section TagsBlock.

Implicit Types (bugData : gmap string JsValue) (errors : list string).

Lemma typeof_string (v : JsValue) : String.eqb (typeof v) "string" = isText v.
Proof. by destruct v. Qed.

Lemma forEachFrom_tags (l : list JsValue) (i : nat) errors :
  forEachFrom
    (fun errors tag index =>
       if negb (String.eqb (typeof tag) "string")
       then push errors (tagError index)
       else errors)
    l i errors
  = errors ++ (tagError <$>
      List.filter
        (fun k => match l !! (k - i) with
                  | Some v => negb (isText v)
                  | None => false
                  end)
        (seq i (length l))).
Proof.
  revert i errors. induction l as [|x l IH]; intros i errors.
  - simpl. by rewrite app_nil_r.
  - cbn [forEachFrom length seq List.filter]. rewrite IH, Nat.sub_diag.
    cbn [lookup list_lookup]. rewrite typeof_string.
    assert (List.filter
              (fun k => match (x :: l) !! (k - i) with
                        | Some v => negb (isText v)
                        | None => false
                        end) (seq (S i) (length l))
            = List.filter
                (fun k => match l !! (k - S i) with
                          | Some v => negb (isText v)
                          | None => false
                          end) (seq (S i) (length l))) as ->.
    { apply filter_ext_in. intros k [Hk _]%in_seq.
      by replace (k - i) with (S (k - S i)) by lia. }
    destruct (negb (isText x)); [|done].
    unfold push. by rewrite <- app_assoc.
Qed.

Lemma checkTags_app bugData errors :
  checkTags bugData errors = Ok (errors ++ tagsErrors bugData).
Proof.
  unfold checkTags, tagsErrors, push.
  destruct (get bugData "tags") as [| |b|q|s|l|m]; simpl;
    rewrite ?app_nil_r; try done.
  - destruct b; simpl; by rewrite ?app_nil_r.
  - destruct (negb _); simpl; by rewrite ?app_nil_r.
  - destruct (negb _); simpl; by rewrite ?app_nil_r.
  - rewrite forEachFrom_tags. unfold nonTextIndices. do 3 f_equal.
    apply filter_ext. intros k. by rewrite Nat.sub_0_r.
Qed.

Lemma filter_seq_sorted (p : nat → bool) (i n : nat) :
  StronglySorted lt (List.filter p (seq i n)).
Proof.
  revert i. induction n as [|n IH]; intros i; simpl; [constructor|].
  destruct (p i); [|apply IH].
  constructor; [apply IH|].
  apply Forall_forall. intros k Hk%list_elem_of_In.
  apply filter_In in Hk as [Hk%in_seq _]. lia.
Qed.

Lemma nonTextIndices_sorted (l : list JsValue) :
  StronglySorted lt (nonTextIndices l).
Proof. apply filter_seq_sorted. Qed.

Lemma elem_of_nonTextIndices (l : list JsValue) (i : nat) :
  i ∈ nonTextIndices l ↔ ∃ v, l !! i = Some v ∧ isText v = false.
Proof.
  unfold nonTextIndices. rewrite list_elem_of_In, filter_In, in_seq. split.
  - intros [_ Hi]. destruct (l !! i) as [v|]; [|done].
    exists v. split; [done|]. by apply negb_true_iff.
  - intros (v & Hv & Ht). split.
    + apply lookup_lt_Some in Hv. lia.
    + rewrite Hv. by rewrite Ht.
Qed.

(** The validator never throws, and its error list is the concatenation
    of the seven blocks' contributions. *)
Lemma validateBugData_blocks bugData :
  validateBugData bugData =
    Ok {| isValid :=
            length (titleErrors bugData ++ descriptionErrors bugData
                    ++ statusErrors bugData ++ priorityErrors bugData
                    ++ reporterErrors bugData ++ assigneeErrors bugData
                    ++ tagsErrors bugData) =? 0;
          errors :=
            titleErrors bugData ++ descriptionErrors bugData
            ++ statusErrors bugData ++ priorityErrors bugData
            ++ reporterErrors bugData ++ assigneeErrors bugData
            ++ tagsErrors bugData |}.
Proof.
  unfold validateBugData.
  rewrite checkTitle_app. cbn [mbind Exc_bind].
  rewrite checkDescription_app. cbn [mbind Exc_bind].
  rewrite checkStatus_app. cbn [mbind Exc_bind].
  rewrite checkPriority_app. cbn [mbind Exc_bind].
  rewrite checkReporter_app. cbn [mbind Exc_bind].
  rewrite checkAssignee_app. cbn [mbind Exc_bind].
  rewrite checkTags_app. cbn [mbind Exc_bind].
  rewrite app_nil_l, <- !app_assoc. done.
Qed.

End TagsBlock.

(** ** Which messages a block can contribute *)

Section MessageClasses.

Implicit Types (bugData : gmap string JsValue) (e : string).

Lemma filter_all {A} (P : A → Prop) `{!∀ x, Decision (P x)} (l : list A) :
  (∀ x, x ∈ l → P x) → filter P l = l.
Proof.
  induction l as [|x l IH]; intros Hl; [done|].
  rewrite filter_cons_True by (apply Hl; left).
  f_equal. apply IH. intros y Hy. apply Hl. by right.
Qed.

Lemma filter_none {A} (P : A → Prop) `{!∀ x, Decision (P x)} (l : list A) :
  (∀ x, x ∈ l → ¬ P x) → filter P l = [].
Proof.
  induction l as [|x l IH]; intros Hl; [done|].
  rewrite filter_cons_False by (apply Hl; left).
  apply IH. intros y Hy. apply Hl. by right.
Qed.

Local Ltac cases_of H :=
  repeat (apply elem_of_cons in H as [->|H]); try (by apply elem_of_nil in H).

Local Ltac in_list :=
  repeat first [apply list_elem_of_here | apply list_elem_of_further].

Local Ltac by_cases_of_field bugData field :=
  let H := fresh "H" in
  destruct (get bugData field) as [| |[]|q|s|l|m]; simpl;
  repeat (destruct (decide _)); repeat (destruct (negb _));
  intros H; cases_of H; in_list.

Lemma titleErrors_elem bugData e :
  e ∈ titleErrors bugData → e ∈ titleMessages.
Proof. unfold titleErrors, titleMessages. by_cases_of_field bugData "title". Qed.

Lemma titleErrors_length bugData : length (titleErrors bugData) ≤ 1.
Proof.
  unfold titleErrors. destruct (get bugData "title"); simpl;
    repeat (destruct (decide _)); simpl; lia.
Qed.

Lemma descriptionErrors_elem bugData e :
  e ∈ descriptionErrors bugData → e ∈ descriptionMessages.
Proof.
  unfold descriptionErrors, descriptionMessages.
  by_cases_of_field bugData "description".
Qed.

Lemma descriptionErrors_length bugData : length (descriptionErrors bugData) ≤ 1.
Proof.
  unfold descriptionErrors. destruct (get bugData "description"); simpl;
    repeat (destruct (decide _)); simpl; lia.
Qed.

Lemma statusErrors_elem bugData e :
  e ∈ statusErrors bugData → e ∈ [statusMessage].
Proof. unfold statusErrors. by_cases_of_field bugData "status". Qed.

Lemma statusErrors_length bugData : length (statusErrors bugData) ≤ 1.
Proof.
  unfold statusErrors. destruct (get bugData "status"); simpl;
    repeat (destruct (decide _)); simpl; lia.
Qed.

Lemma priorityErrors_elem bugData e :
  e ∈ priorityErrors bugData → e ∈ [priorityMessage].
Proof. unfold priorityErrors. by_cases_of_field bugData "priority". Qed.

Lemma priorityErrors_length bugData : length (priorityErrors bugData) ≤ 1.
Proof.
  unfold priorityErrors. destruct (get bugData "priority") as [| |[]| | | |];
    simpl; repeat (destruct (decide _)); repeat (destruct (negb _)); simpl; lia.
Qed.

Lemma reporterErrors_elem bugData e :
  e ∈ reporterErrors bugData → e ∈ reporterMessages.
Proof.
  unfold reporterErrors, reporterMessages.
  by_cases_of_field bugData "reporter".
Qed.

Lemma reporterErrors_length bugData : length (reporterErrors bugData) ≤ 1.
Proof.
  unfold reporterErrors. destruct (get bugData "reporter"); simpl;
    repeat (destruct (decide _)); simpl; lia.
Qed.

Lemma assigneeErrors_elem bugData e :
  e ∈ assigneeErrors bugData → e ∈ [assigneeMessage].
Proof. unfold assigneeErrors. by_cases_of_field bugData "assignee". Qed.

Lemma assigneeErrors_length bugData : length (assigneeErrors bugData) ≤ 1.
Proof.
  unfold assigneeErrors. destruct (get bugData "assignee") as [| |[]| | | |];
    simpl; repeat (destruct (negb _)); simpl; lia.
Qed.

Lemma tagsErrors_elem bugData e :
  e ∈ tagsErrors bugData → e = tagsNotArray ∨ ∃ i, e = tagError i.
Proof.
  unfold tagsErrors.
  destruct (get bugData "tags") as [| |[]|q|s|l|m]; simpl;
    repeat (destruct (negb _));
    try (intros H; cases_of H; by left).
  intros (i & -> & _)%list_elem_of_fmap. eauto.
Qed.

(** A per-index tag message is none of the fixed messages. *)
Lemma tagError_fresh (i : nat) :
  tagError i ∉ titleMessages ++ descriptionMessages
               ++ [statusMessage; priorityMessage] ++ reporterMessages
               ++ [assigneeMessage; tagsNotArray].
Proof.
  intros H. unfold tagError in H. simpl in H.
  repeat (apply elem_of_cons in H as [H|H]; [discriminate H|]).
  by apply elem_of_nil in H.
Qed.

End MessageClasses.

(** ** The validator's contract *)

Section ValidatorContract.

Implicit Types (bugData : gmap string JsValue) (e : string).

Local Ltac closed_false H :=
  exfalso; revert H; refine (proj1 (bool_decide_eq_false _) _);
  vm_compute; reflexivity.

Local Ltac cases_of H :=
  repeat (apply elem_of_cons in H as [->|H]); try (by apply elem_of_nil in H).

(** A block that reports only fixed messages none of which satisfies [P]
    contributes nothing to [filter P]. *)
Local Ltac foreign lem :=
  let x := fresh "x" in
  let Hx := fresh "Hx" in
  let HP := fresh "HP" in
  intros x Hx HP; apply lem in Hx; cases_of Hx; closed_false HP.

Lemma tagsErrors_filter (P : string → Prop) `{!∀ x, Decision (P x)} bugData :
  (∀ m, P m → m ∈ fixedMessages) → ¬ P tagsNotArray →
  filter P (tagsErrors bugData) = [].
Proof.
  intros Hfixed Hna. apply filter_none.
  intros x [->|[i ->]]%tagsErrors_elem HP; [done|].
  by apply (tagError_fresh i), Hfixed.
Qed.

Lemma title_in_fixed e : e ∈ titleMessages → e ∈ fixedMessages.
Proof. intros H. unfold fixedMessages. apply elem_of_app. by left. Qed.

Lemma filter_title_messages bugData :
  filter (.∈ titleMessages)
    (titleErrors bugData ++ descriptionErrors bugData
     ++ statusErrors bugData ++ priorityErrors bugData
     ++ reporterErrors bugData ++ assigneeErrors bugData
     ++ tagsErrors bugData)
  = titleErrors bugData.
Proof.
  rewrite !filter_app.
  rewrite (filter_all _ (titleErrors bugData)) by apply titleErrors_elem.
  rewrite (filter_none _ (descriptionErrors bugData)) by foreign descriptionErrors_elem.
  rewrite (filter_none _ (statusErrors bugData)) by foreign statusErrors_elem.
  rewrite (filter_none _ (priorityErrors bugData)) by foreign priorityErrors_elem.
  rewrite (filter_none _ (reporterErrors bugData)) by foreign reporterErrors_elem.
  rewrite (filter_none _ (assigneeErrors bugData)) by foreign assigneeErrors_elem.
  rewrite tagsErrors_filter; [by rewrite app_nil_r|apply title_in_fixed|].
  refine (proj1 (bool_decide_eq_false _) _). vm_compute. reflexivity.
Qed.

Lemma filter_status_message bugData :
  filter (.= statusMessage)
    (titleErrors bugData ++ descriptionErrors bugData
     ++ statusErrors bugData ++ priorityErrors bugData
     ++ reporterErrors bugData ++ assigneeErrors bugData
     ++ tagsErrors bugData)
  = statusErrors bugData.
Proof.
  rewrite !filter_app.
  rewrite (filter_none _ (titleErrors bugData)) by foreign titleErrors_elem.
  rewrite (filter_none _ (descriptionErrors bugData)) by foreign descriptionErrors_elem.
  rewrite (filter_all _ (statusErrors bugData)).
  2: { intros x Hx%statusErrors_elem. by cases_of Hx. }
  rewrite (filter_none _ (priorityErrors bugData)) by foreign priorityErrors_elem.
  rewrite (filter_none _ (reporterErrors bugData)) by foreign reporterErrors_elem.
  rewrite (filter_none _ (assigneeErrors bugData)) by foreign assigneeErrors_elem.
  rewrite tagsErrors_filter; [by rewrite app_nil_r| |done].
  intros m ->. refine (bool_decide_unpack _ _). vm_compute. exact I.
Qed.

Lemma filter_priority_message bugData :
  filter (.= priorityMessage)
    (titleErrors bugData ++ descriptionErrors bugData
     ++ statusErrors bugData ++ priorityErrors bugData
     ++ reporterErrors bugData ++ assigneeErrors bugData
     ++ tagsErrors bugData)
  = priorityErrors bugData.
Proof.
  rewrite !filter_app.
  rewrite (filter_none _ (titleErrors bugData)) by foreign titleErrors_elem.
  rewrite (filter_none _ (descriptionErrors bugData)) by foreign descriptionErrors_elem.
  rewrite (filter_none _ (statusErrors bugData)) by foreign statusErrors_elem.
  rewrite (filter_all _ (priorityErrors bugData)).
  2: { intros x Hx%priorityErrors_elem. by cases_of Hx. }
  rewrite (filter_none _ (reporterErrors bugData)) by foreign reporterErrors_elem.
  rewrite (filter_none _ (assigneeErrors bugData)) by foreign assigneeErrors_elem.
  rewrite tagsErrors_filter; [by rewrite app_nil_r| |done].
  intros m ->. refine (bool_decide_unpack _ _). vm_compute. exact I.
Qed.

(** C1. For every bug-like mapping, validateBugData returns (it never
    throws) a result whose [isValid] flag is true exactly when its error
    list is empty, and the error list is made of seven consecutive
    segments in the fixed order title, description, status, priority,
    reporter, assignee, tags: each of the first six holds at most one
    message, of its own field; the tags segment is either the single
    not-an-array message or one message per position that does not hold
    text, the positions in strictly ascending order. The function reads
    its argument and builds a fresh list; it has no other effect. *)
Theorem validateBugData_ordered_errors bugData :
  ∃ r ts ds ss ps rs es gs,
    validateBugData bugData = Ok r
    ∧ (isValid r = true ↔ errors r = [])
    ∧ errors r = ts ++ ds ++ ss ++ ps ++ rs ++ es ++ gs
    ∧ (length ts ≤ 1 ∧ ts ⊆ titleMessages)
    ∧ (length ds ≤ 1 ∧ ds ⊆ descriptionMessages)
    ∧ (length ss ≤ 1 ∧ ss ⊆ [statusMessage])
    ∧ (length ps ≤ 1 ∧ ps ⊆ [priorityMessage])
    ∧ (length rs ≤ 1 ∧ rs ⊆ reporterMessages)
    ∧ (length es ≤ 1 ∧ es ⊆ [assigneeMessage])
    ∧ ((length gs ≤ 1 ∧ gs ⊆ [tagsNotArray])
       ∨ ∃ l idxs,
           get bugData "tags" = JArr l
           ∧ gs = tagError <$> idxs
           ∧ StronglySorted lt idxs
           ∧ ∀ i, i ∈ idxs ↔ ∃ v, l !! i = Some v ∧ isText v = false).
Proof.
  eexists _, (titleErrors bugData), (descriptionErrors bugData),
    (statusErrors bugData), (priorityErrors bugData),
    (reporterErrors bugData), (assigneeErrors bugData), (tagsErrors bugData).
  split; [apply validateBugData_blocks|]. cbn [isValid errors].
  split; [by rewrite Nat.eqb_eq, length_zero_iff_nil|].
  split; [done|].
  split; [split; [apply titleErrors_length|intros e; apply titleErrors_elem]|].
  split; [split; [apply descriptionErrors_length
                 |intros e; apply descriptionErrors_elem]|].
  split; [split; [apply statusErrors_length|intros e; apply statusErrors_elem]|].
  split; [split; [apply priorityErrors_length
                 |intros e; apply priorityErrors_elem]|].
  split; [split; [apply reporterErrors_length
                 |intros e; apply reporterErrors_elem]|].
  split; [split; [apply assigneeErrors_length
                 |intros e; apply assigneeErrors_elem]|].
  unfold tagsErrors.
  destruct (get bugData "tags") as [| |[]|q|s|l|m] eqn:Htags; simpl;
    try (destruct (negb _));
    try (left; split; [simpl; lia|intros e He; first [exact He|by apply elem_of_nil in He]]).
  right. exists l, (nonTextIndices l).
  split; [done|]. split; [done|].
  split; [apply nonTextIndices_sorted|apply elem_of_nonTextIndices].
Qed.

(** C3, as amended. The three title rules are exclusive, so at most one
    title message is ever reported: when [title] is missing, falsy (the
    empty string included) or not text, it is the required/type message
    and no other; otherwise, when the text is blank (empty once trimmed),
    it is the empty-title message; otherwise, when it is longer than 100
    characters, it is the too-long message; otherwise none. With a title
    of 101 characters and every other field valid the whole error list
    is that one too-long message. *)
Theorem title_rules_exclusive :
  (∀ bugData,
     ∃ r, validateBugData bugData = Ok r
       ∧ let reported := filter (.∈ titleMessages) (errors r) in
         length reported ≤ 1
         ∧ (truthy (get bugData "title") = false
            ∨ isText (get bugData "title") = false
            → reported = [titleRequired])
         ∧ (∀ s, get bugData "title" = JStr s → s ≠ "" → trim s = ""
                 → reported = [titleEmpty])
         ∧ (∀ s, get bugData "title" = JStr s → trim s ≠ ""
                 → 100 < String.length s → reported = [titleTooLong])
         ∧ (∀ s, get bugData "title" = JStr s → trim s ≠ ""
                 → String.length s ≤ 100 → reported = []))
  ∧ validateBugData longTitleBug
      = Ok {| isValid := false; errors := [titleTooLong] |}.
Proof.
  split; [|by vm_compute].
  intros bugData. eexists. split; [apply validateBugData_blocks|].
  cbn [errors]. rewrite filter_title_messages.
  split; [apply titleErrors_length|]. unfold titleErrors.
  split; [|split; [|split]].
  - intros [Hf|Ht]; destruct (get bugData "title"); try done.
    simpl in Hf. apply negb_false_iff, eqb_empty_true in Hf as ->. done.
  - intros s -> Hs Ht. cbv beta iota.
    destruct (decide (s = "")); [done|].
    by destruct (decide (trim s = "")).
  - intros s -> Ht Hl. cbv beta iota.
    destruct (decide (s = "")) as [->|]; [done|].
    destruct (decide (trim s = "")); [done|].
    by destruct (decide (100 < String.length s)).
  - intros s -> Ht Hl. cbv beta iota.
    destruct (decide (s = "")) as [->|]; [done|].
    destruct (decide (trim s = "")); [done|].
    destruct (decide (100 < String.length s)); [lia|done].
Qed.

(** C5. When [status] is present (not [undefined]) and is not one of the
    four legal values, the error list holds the status message exactly
    once. When [priority] is truthy and is not one of its four legal
    values, the error list holds the priority message exactly once; a
    falsy [priority], such as the empty string, produces no priority
    message. *)
Theorem status_priority_rules bugData :
  ∃ r, validateBugData bugData = Ok r
    ∧ (get bugData "status" ≠ JUndefined
       → (∀ s, s ∈ validStatuses → get bugData "status" ≠ JStr s)
       → filter (.= statusMessage) (errors r) = [statusMessage])
    ∧ (truthy (get bugData "priority") = true
       → (∀ s, s ∈ validPriorities → get bugData "priority" ≠ JStr s)
       → filter (.= priorityMessage) (errors r) = [priorityMessage])
    ∧ (truthy (get bugData "priority") = false
       → priorityMessage ∉ errors r).
Proof.
  eexists. split; [apply validateBugData_blocks|]. cbn [errors].
  split; [|split].
  - rewrite filter_status_message. unfold statusErrors.
    intros Hp Hv. destruct (get bugData "status"); try done.
    destruct (decide _) as [Hs|]; [|done]. by destruct (Hv _ Hs).
  - rewrite filter_priority_message. unfold priorityErrors.
    intros Hp Hv. destruct (get bugData "priority") as [| |b|q|s|l|m];
      try done; simpl in Hp; try (cbn [truthy]; by rewrite Hp).
    destruct (decide (s = "")) as [->|]; [done|].
    destruct (decide _) as [Hs|]; [|done]. by destruct (Hv _ Hs).
  - intros Hp Hin.
    assert (priorityMessage ∈ filter (.= priorityMessage)
              (titleErrors bugData ++ descriptionErrors bugData
               ++ statusErrors bugData ++ priorityErrors bugData
               ++ reporterErrors bugData ++ assigneeErrors bugData
               ++ tagsErrors bugData)) as Hf
      by by apply list_elem_of_filter.
    rewrite filter_priority_message in Hf. unfold priorityErrors in Hf.
    destruct (get bugData "priority") as [| |b|q|s|l|m]; simpl in Hp;
      try discriminate Hp;
      try (cbn [truthy] in Hf; rewrite ?Hp in Hf; by apply elem_of_nil in Hf).
    apply negb_false_iff, eqb_empty_true in Hp as ->.
    by apply elem_of_nil in Hf.
Qed.

End ValidatorContract.

(** The repository's own cases for the title rules. *)
Lemma title_rules_exclusive_witness :
  (∃ r, validateBugData blankTitleBug = Ok r
     ∧ filter (.∈ titleMessages) (errors r) = [titleEmpty])
  ∧ (∃ r, validateBugData emptyTitleBug = Ok r
       ∧ filter (.∈ titleMessages) (errors r) = [titleRequired]).
Proof.
  split.
  - destruct (proj1 title_rules_exclusive blankTitleBug)
      as (r & Hr & _ & _ & Hblank & _).
    exists r. split; [exact Hr|].
    apply (Hblank "   "); [reflexivity|discriminate|reflexivity].
  - destruct (proj1 title_rules_exclusive emptyTitleBug)
      as (r & Hr & _ & Hreq & _).
    exists r. split; [exact Hr|]. apply Hreq. left. reflexivity.
Defined.

(** C3, as stated, fails on the empty string: the title is there, is text
    and is empty once trimmed, and yet the validator reports the
    required/type message, not the empty-title one. *)
Lemma empty_title_reports_required :
  emptyTitleBug !! "title" = Some (JStr "")
  ∧ trim "" = ""
  ∧ validateBugData emptyTitleBug
      = Ok {| isValid := false; errors := [titleRequired] |}
  ∧ titleEmpty ∉ [titleRequired].
Proof.
  split; [by vm_compute|]. split; [done|]. split; [by vm_compute|].
  refine (proj1 (bool_decide_eq_false _) _). by vm_compute.
Qed.

(** The invalid-status and invalid-priority cases of the unit tests, and an
    empty priority. *)
Lemma status_priority_rules_witness :
  (∃ r, validateBugData invalidStatusBug = Ok r
     ∧ filter (.= statusMessage) (errors r) = [statusMessage]
     ∧ priorityMessage ∉ errors r)
  ∧ (∃ r, validateBugData invalidPriorityBug = Ok r
       ∧ filter (.= priorityMessage) (errors r) = [priorityMessage]).
Proof.
  split.
  - destruct (status_priority_rules invalidStatusBug) as (r & Hr & Hs & _ & Hp).
    exists r. split; [exact Hr|]. split.
    + apply Hs; [discriminate|].
      intros s Hs' Heq. injection Heq as <-. revert Hs'.
      refine (proj1 (bool_decide_eq_false _) _). vm_compute. reflexivity.
    + apply Hp. reflexivity.
  - destruct (status_priority_rules invalidPriorityBug) as (r & Hr & _ & Hp & _).
    exists r. split; [exact Hr|].
    apply Hp; [reflexivity|].
    intros s Hs' Heq. injection Heq as <-. revert Hs'.
    refine (proj1 (bool_decide_eq_false _) _). vm_compute. reflexivity.
Defined.

(** ** The sanitizer as a map transformation *)

Section SanitizerModel.

Implicit Types (bugData m : gmap string JsValue) (k field : string).

Lemma trimField_alter m field :
  trimField m field = Ok (alter trimValue field m).
Proof.
  unfold trimField, get.
  destruct (m !! field) as [v|] eqn:Hv; simpl.
  - destruct v as [| |b|q|s|l|o]; simpl;
      rewrite ?andb_false_r;
      try (f_equal; symmetry; apply alter_id; intros x Hx;
           rewrite Hv in Hx; by injection Hx as <-).
    destruct (String.eqb s "") eqn:Hs; simpl.
    + apply eqb_empty_true in Hs as ->.
      f_equal. symmetry. apply alter_id. intros x Hx.
      rewrite Hv in Hx. by injection Hx as <-.
    + f_equal. apply map_eq. intros j.
      rewrite lookup_insert, lookup_alter.
      destruct (decide (field = j)) as [<-|]; [by rewrite Hv|done].
  - f_equal. symmetry. by apply alter_id'.
Qed.

Lemma mapM_trim_kept (l : list JsValue) :
  mapM method_trim
    (List.filter (fun tag => String.eqb (typeof tag) "string") l)
  = Ok (trim <$> omap asText l).
Proof.
  induction l as [|x l IH]; [done|].
  destruct x; simpl; try apply IH.
  by rewrite IH.
Qed.

Lemma filter_nonEmpty (l : list string) :
  List.filter (fun tag => 0 <? String.length tag) l = filter (λ t, t ≠ "") l.
Proof.
  induction l as [|x l IH]; [done|].
  simpl. rewrite IH. destruct x; simpl.
  - by rewrite filter_cons_False by (by intros H).
  - by rewrite filter_cons_True.
Qed.

(** The tag pipeline never throws and computes the specified list. *)
Lemma sanitizeTags_spec (l : list JsValue) :
  sanitizeTags (JArr l) = Ok (specTags l).
Proof.
  unfold sanitizeTags, specTags. cbn [method_filter mbind Exc_bind].
  rewrite mapM_trim_kept. cbn [mbind Exc_bind].
  by rewrite filter_nonEmpty.
Qed.

Lemma sanitizeBugData_sanitized bugData :
  sanitizeBugData bugData = Ok (sanitized bugData).
Proof.
  unfold sanitizeBugData, sanitized, trimmedFields. cbn [foldM].
  rewrite !trimField_alter. cbn [mbind Exc_bind].
  rewrite !trimField_alter. cbn [mbind Exc_bind].
  rewrite !trimField_alter. cbn [mbind Exc_bind].
  rewrite !trimField_alter. cbn [mbind Exc_bind].
  set (m := alter trimValue "assignee" _).
  unfold get. destruct (m !! "tags") as [v|] eqn:Hv; simpl.
  - destruct v as [| |b|q|s|l|o]; simpl; rewrite ?andb_false_r;
      try (f_equal; symmetry; apply alter_id; intros x Hx;
           rewrite Hv in Hx; by injection Hx as <-).
    rewrite sanitizeTags_spec. cbn [mbind Exc_bind].
    f_equal. apply map_eq. intros j.
    rewrite lookup_insert, lookup_alter.
    destruct (decide ("tags" = j)) as [<-|]; [by rewrite Hv|done].
  - f_equal. symmetry. by apply alter_id'.
Qed.

Lemma lookup_sanitized_trimmed bugData field :
  field ∈ trimmedFields →
  sanitized bugData !! field = trimValue <$> bugData !! field.
Proof.
  intros H. unfold sanitized.
  repeat (apply elem_of_cons in H as [->|H]);
    try (by apply elem_of_nil in H);
    rewrite !lookup_alter; repeat (destruct (decide _); try done);
    by destruct (bugData !! _).
Qed.

Lemma lookup_sanitized_tags bugData :
  sanitized bugData !! "tags" = cleanTags <$> bugData !! "tags".
Proof.
  unfold sanitized. rewrite lookup_alter_eq. by rewrite !lookup_alter_ne.
Qed.

Lemma lookup_sanitized_other bugData k :
  k ∉ trimmedFields → k ≠ "tags" → sanitized bugData !! k = bugData !! k.
Proof.
  intros Hk Ht. unfold sanitized.
  rewrite !lookup_alter_ne; [done|..]; intros <-; try done;
    apply Hk; unfold trimmedFields;
    repeat first [apply list_elem_of_here | apply list_elem_of_further].
Qed.

Lemma dom_sanitized bugData : dom (sanitized bugData) = dom bugData.
Proof. unfold sanitized. by rewrite !dom_alter_L. Qed.

Lemma get_sanitized_trimmed bugData field :
  field ∈ trimmedFields →
  get (sanitized bugData) field = trimValue (get bugData field).
Proof.
  intros H. unfold get. rewrite lookup_sanitized_trimmed by done.
  by destruct (bugData !! field).
Qed.

End SanitizerModel.

(** ** The sanitizer's contract *)

Section SanitizerContract.

Implicit Types (bugData : gmap string JsValue) (k field : string).

Local Ltac closed_false H :=
  exfalso; revert H; refine (proj1 (bool_decide_eq_false _) _);
  vm_compute; reflexivity.

Local Ltac cases_of H :=
  repeat (apply elem_of_cons in H as [->|H]); try (by apply elem_of_nil in H).

(** C2. When [tags] is present and is an array, the sanitizer returns
    (it does not throw) a mapping whose [tags] is the input sequence with
    every element that is not text dropped, the remaining ones trimmed,
    and those that are then empty dropped, in the original order. *)
Theorem sanitize_tags_kept bugData (tags : list JsValue) :
  bugData !! "tags" = Some (JArr tags) →
  ∃ out, sanitizeBugData bugData = Ok out
    ∧ out !! "tags" = Some (JArr (JStr <$> specTags tags)).
Proof.
  intros Htags. exists (sanitized bugData).
  split; [apply sanitizeBugData_sanitized|].
  by rewrite lookup_sanitized_tags, Htags.
Qed.

(** C7, as amended. The sanitizer never fails; its output has the keys of
    its input; each of title, description, reporter, assignee that holds
    text holds the trimmed text afterwards and is untouched otherwise;
    [tags] is untouched unless it is an array; every field other than
    these five is passed through unchanged. *)
Theorem sanitize_frame bugData :
  ∃ out, sanitizeBugData bugData = Ok out
    ∧ dom out = dom bugData
    ∧ (∀ field s, field ∈ trimmedFields → bugData !! field = Some (JStr s)
         → out !! field = Some (JStr (trim s)))
    ∧ (∀ field, field ∈ trimmedFields
         → (∀ s, bugData !! field ≠ Some (JStr s))
         → out !! field = bugData !! field)
    ∧ ((∀ l, bugData !! "tags" ≠ Some (JArr l))
         → out !! "tags" = bugData !! "tags")
    ∧ (∀ k, k ∉ trimmedFields → k ≠ "tags" → out !! k = bugData !! k).
Proof.
  exists (sanitized bugData).
  split; [apply sanitizeBugData_sanitized|].
  split; [apply dom_sanitized|].
  split; [|split; [|split]].
  - intros field s Hf Hs. by rewrite lookup_sanitized_trimmed, Hs.
  - intros field Hf Hs. rewrite lookup_sanitized_trimmed by done.
    destruct (bugData !! field) as [[| |b|q|s|l|o]|]; try done.
    by destruct (Hs s).
  - intros Ht. rewrite lookup_sanitized_tags.
    destruct (bugData !! "tags") as [[| |b|q|s|l|o]|]; try done.
    by destruct (Ht l).
  - apply lookup_sanitized_other.
Qed.

Lemma no_blank_after_trim (v : JsValue) (s : string) :
  trimValue v = JStr s → s ≠ "" → trim s ≠ "".
Proof.
  destruct v as [| |b|q|t|l|o]; simpl; intros [= <-]; try done.
  by rewrite trim_idem.
Qed.

(** C10. On sanitized input the validator never reports an empty title,
    description or reporter: the sanitizer and then the validator both
    return, and none of the three empty-after-trim messages is in the
    error list. A blank value of one of these fields has become the empty
    string, which is falsy, so the required/type message of that field is
    reported instead. *)
Theorem sanitized_never_reported_empty bugData :
  ∃ clean r,
    sanitizeBugData bugData = Ok clean
    ∧ validateBugData clean = Ok r
    ∧ (titleEmpty ∉ errors r)
    ∧ (descriptionEmpty ∉ errors r)
    ∧ (reporterEmpty ∉ errors r)
    ∧ (∀ s, bugData !! "title" = Some (JStr s) → trim s = ""
            → titleRequired ∈ errors r)
    ∧ (∀ s, bugData !! "description" = Some (JStr s) → trim s = ""
            → descriptionRequired ∈ errors r)
    ∧ (∀ s, bugData !! "reporter" = Some (JStr s) → trim s = ""
            → reporterRequired ∈ errors r).
Proof.
  exists (sanitized bugData). eexists.
  split; [apply sanitizeBugData_sanitized|].
  split; [apply validateBugData_blocks|]. cbn [errors].
  assert ("title" ∈ trimmedFields) as Htitle
    by (refine (bool_decide_unpack _ _); by vm_compute).
  assert ("description" ∈ trimmedFields) as Hdescription
    by (refine (bool_decide_unpack _ _); by vm_compute).
  assert ("reporter" ∈ trimmedFields) as Hreporter
    by (refine (bool_decide_unpack _ _); by vm_compute).
  pose proof (get_sanitized_trimmed bugData _ Htitle) as Ht.
  pose proof (get_sanitized_trimmed bugData _ Hdescription) as Hd.
  pose proof (get_sanitized_trimmed bugData _ Hreporter) as Hr.
  repeat split.
  - rewrite !elem_of_app.
    intros [H|[H|[H|[H|[H|[H|H]]]]]].
    + unfold titleErrors in H. rewrite Ht in H.
      destruct (trimValue (get bugData "title")) as [| |b|q|s|l|o] eqn:Hv;
        try closed_false H.
      destruct (decide (s = "")) as [->|Hs]; [closed_false H|].
      pose proof (no_blank_after_trim _ _ Hv Hs).
      destruct (decide (trim s = "")); [done|].
      destruct (decide (100 < String.length s)); [closed_false H|].
      by apply elem_of_nil in H.
    + apply descriptionErrors_elem in H. closed_false H.
    + apply statusErrors_elem in H. closed_false H.
    + apply priorityErrors_elem in H. closed_false H.
    + apply reporterErrors_elem in H. closed_false H.
    + apply assigneeErrors_elem in H. closed_false H.
    + apply tagsErrors_elem in H as [H|[i H]]; [discriminate H|].
      apply (tagError_fresh i). rewrite <- H.
      refine (bool_decide_unpack _ _). by vm_compute.
  - rewrite !elem_of_app.
    intros [H|[H|[H|[H|[H|[H|H]]]]]].
    + apply titleErrors_elem in H. closed_false H.
    + unfold descriptionErrors in H. rewrite Hd in H.
      destruct (trimValue (get bugData "description"))
        as [| |b|q|s|l|o] eqn:Hv; try closed_false H.
      destruct (decide (s = "")) as [->|Hs]; [closed_false H|].
      pose proof (no_blank_after_trim _ _ Hv Hs).
      destruct (decide (trim s = "")); [done|].
      destruct (decide (1000 < String.length s)); [closed_false H|].
      by apply elem_of_nil in H.
    + apply statusErrors_elem in H. closed_false H.
    + apply priorityErrors_elem in H. closed_false H.
    + apply reporterErrors_elem in H. closed_false H.
    + apply assigneeErrors_elem in H. closed_false H.
    + apply tagsErrors_elem in H as [H|[i H]]; [discriminate H|].
      apply (tagError_fresh i). rewrite <- H.
      refine (bool_decide_unpack _ _). by vm_compute.
  - rewrite !elem_of_app.
    intros [H|[H|[H|[H|[H|[H|H]]]]]].
    + apply titleErrors_elem in H. closed_false H.
    + apply descriptionErrors_elem in H. closed_false H.
    + apply statusErrors_elem in H. closed_false H.
    + apply priorityErrors_elem in H. closed_false H.
    + unfold reporterErrors in H. rewrite Hr in H.
      destruct (trimValue (get bugData "reporter"))
        as [| |b|q|s|l|o] eqn:Hv; try closed_false H.
      destruct (decide (s = "")) as [->|Hs]; [closed_false H|].
      pose proof (no_blank_after_trim _ _ Hv Hs).
      destruct (decide (trim s = "")); [done|].
      by apply elem_of_nil in H.
    + apply assigneeErrors_elem in H. closed_false H.
    + apply tagsErrors_elem in H as [H|[i H]]; [discriminate H|].
      apply (tagError_fresh i). rewrite <- H.
      refine (bool_decide_unpack _ _). by vm_compute.
  - intros s Hs Hblank. apply elem_of_app. left.
    unfold titleErrors. rewrite Ht. unfold get. rewrite Hs. simpl.
    rewrite Hblank. apply list_elem_of_here.
  - intros s Hs Hblank. rewrite !elem_of_app. right. left.
    unfold descriptionErrors. rewrite Hd. unfold get. rewrite Hs. simpl.
    rewrite Hblank. apply list_elem_of_here.
  - intros s Hs Hblank. rewrite !elem_of_app. do 4 right. left.
    unfold reporterErrors. rewrite Hr. unfold get. rewrite Hs. simpl.
    rewrite Hblank. apply list_elem_of_here.
Qed.

End SanitizerContract.

(** The specification's example: [["  tag1  ", "", "  tag2  ", 123]]
    becomes [["tag1", "tag2"]]. *)
Lemma sanitize_tags_kept_witness :
  ∃ out, sanitizeBugData mixedTagsBug = Ok out
    ∧ out !! "tags" = Some (JArr [JStr "tag1"; JStr "tag2"]).
Proof.
  destruct (sanitize_tags_kept mixedTagsBug mixedTags) as (out & Hout & Htags).
  - reflexivity.
  - exists out. split; [exact Hout|]. exact Htags.
Defined.

(** The body of the integration test: whitespace is trimmed, the keys stay
    the same. *)
Lemma sanitize_frame_witness :
  ∃ out, sanitizeBugData untrimmedBug = Ok out
    ∧ out !! "title" = Some (JStr "Test Bug")
    ∧ out !! "status" = None.
Proof.
  destruct (sanitize_frame untrimmedBug)
    as (out & Hout & _ & Htrim & _ & _ & Hother).
  exists out. split; [exact Hout|]. split.
  - apply (Htrim "title" "  Test Bug  "); [|reflexivity].
    refine (bool_decide_unpack _ _). vm_compute. exact I.
  - rewrite (Hother "status"); [reflexivity| |discriminate].
    refine (proj1 (bool_decide_eq_false _) _). vm_compute. reflexivity.
Defined.

(** C7, as stated, fails on [tags]: it is not one of the four trimmed
    fields, and still the sanitizer rewrites it. *)
Lemma sanitize_rewrites_tags :
  ("tags" ∉ trimmedFields)
  ∧ untrimmedBug !! "tags"
      = Some (JArr [JStr "  tag1  "; JStr ""; JStr "  tag2  "])
  ∧ ∃ out, sanitizeBugData untrimmedBug = Ok out
      ∧ out !! "tags" = Some (JArr [JStr "tag1"; JStr "tag2"])
      ∧ out !! "tags" ≠ untrimmedBug !! "tags".
Proof.
  split; [refine (proj1 (bool_decide_eq_false _) _); by vm_compute|].
  split; [by vm_compute|].
  exists (sanitized untrimmedBug).
  split; [apply sanitizeBugData_sanitized|].
  assert (sanitized untrimmedBug !! "tags"
          = Some (JArr [JStr "tag1"; JStr "tag2"])) as Hout by by vm_compute.
  split; [exact Hout|]. rewrite Hout. by vm_compute.
Qed.

(** Blank title, description and reporter: after sanitization the
    validator reports the three required/type messages. *)
Lemma sanitized_never_reported_empty_witness :
  ∃ clean r,
    sanitizeBugData blankFieldsBug = Ok clean
    ∧ validateBugData clean = Ok r
    ∧ (titleEmpty ∉ errors r)
    ∧ titleRequired ∈ errors r.
Proof.
  destruct (sanitized_never_reported_empty blankFieldsBug)
    as (clean & r & Hc & Hr & Ht & _ & _ & Hreq & _).
  exists clean, r. split; [exact Hc|]. split; [exact Hr|].
  split; [exact Ht|]. apply (Hreq "   "); reflexivity.
Defined.

(** ** The identifier check *)

Section ObjectId.

Lemma matchRepeat_all (cls : ascii → bool) (n : nat) (s : string) :
  matchRepeat cls n s = Some ""
  ↔ String.length s = n
    ∧ ∀ c, c ∈ String.list_ascii_of_string s → cls c = true.
Proof.
  revert s. induction n as [|n IH]; intros s; simpl.
  - split.
    + intros [= ->]. split; [done|]. intros c Hc. by apply elem_of_nil in Hc.
    + intros [Hl _]. by destruct s.
  - destruct s as [|c r]; simpl.
    + split; [done|]. by intros [? _].
    + destruct (cls c) eqn:Hc.
      * rewrite IH. split.
        -- intros [Hl Hall]. split; [by rewrite Hl|].
           intros d [->|Hd]%elem_of_cons; [done|by apply Hall].
        -- intros [Hl Hall]. split; [by injection Hl|].
           intros d Hd. apply Hall. by right.
      * split; [done|]. intros [_ Hall].
        rewrite Hall in Hc; [done|]. left.
Qed.

Lemma hexClass_decide (c : ascii) :
  hexClass c = bool_decide (c ∈ hexAlphabet).
Proof. destruct c as [[] [] [] [] [] [] [] []]; by vm_compute. Qed.

Lemma hexClass_alphabet (c : ascii) : hexClass c = true ↔ c ∈ hexAlphabet.
Proof. rewrite hexClass_decide. apply bool_decide_eq_true. Qed.

(** C6. The identifier check accepts a text token exactly when it has 24
    characters, every one of them among 0-9, a-f, A-F; so it accepts
    ["507f1f77bcf86cd799439011"], in either letter case, and rejects the
    23-character ["507f1f77bcf86cd79943901"]. *)
Theorem isValidObjectId_hex24 :
  (∀ id : string,
     isValidObjectId id = true
     ↔ String.length id = 24
       ∧ ∀ c, c ∈ String.list_ascii_of_string id → c ∈ hexAlphabet)
  ∧ isValidObjectId validId = true
  ∧ isValidObjectId upperCaseId = true
  ∧ isValidObjectId shortId = false.
Proof.
  split; [|by vm_compute].
  intros id. unfold isValidObjectId.
  transitivity (matchRepeat hexClass 24 id = Some "").
  - destruct (matchRepeat hexClass 24 id) as [[|c r]|]; split; congruence.
  - rewrite matchRepeat_all. split; intros [Hl Hall]; (split; [done|]);
      intros c Hc; apply hexClass_alphabet; by apply Hall.
Qed.

End ObjectId.

(** ** The route handlers *)

Section RoutesContract.

Import Routes.

Implicit Types (id : string) (reqBody clean : gmap string JsValue)
  (now : JsValue).

(** C8. When the identifier fails the 24-character hexadecimal check,
    GET, PUT and DELETE on /bugs/{id} answer 400 at once: the handler is
    the bare response, so against every Record Store it performs no store
    operation and leaves the store as it was. *)
Theorem malformed_id_rejected_before_store now id reqBody :
  isValidObjectId id = false →
  getById id = Respond invalidId
  ∧ put now id reqBody = Respond invalidId
  ∧ delete id = Respond invalidId
  ∧ ∀ (Store : Type) (exec : DbOp → Store → DbResult * Store) (db : Store),
      run exec (getById id) db = (invalidId, [], db)
      ∧ run exec (put now id reqBody) db = (invalidId, [], db)
      ∧ run exec (delete id) db = (invalidId, [], db).
Proof.
  intros Hid. unfold getById, put, delete. rewrite Hid. simpl.
  repeat split; reflexivity.
Qed.

Lemma two_keys_size clean k :
  k ≠ "status" → k ∈ dom clean → "status" ∈ dom clean → 1 < size clean.
Proof.
  intros Hne Hk Hs.
  rewrite <- size_dom.
  assert ({[k]} ∪ {["status"]} ⊆ dom clean) as Hsub.
  { intros x [Hx|Hx]%elem_of_union; apply elem_of_singleton in Hx; by subst. }
  apply subseteq_size in Hsub.
  rewrite size_union in Hsub
    by (by apply disjoint_singleton_l, not_elem_of_singleton).
  rewrite !size_singleton in Hsub. lia.
Qed.

(** C4, as amended. For a PUT whose identifier is well formed: when the
    sanitized body has more than one key, or has a key other than
    [status], the full validator runs on the sanitized body, and if it
    fails the answer is 400 with the itemized errors; when the sanitized
    body has [status] as its only key and that status is truthy, the
    validator is not run and the handler goes straight to the store
    update. *)
Theorem put_validation_rule now id reqBody :
  isValidObjectId id = true →
  ∃ clean,
    sanitizeBugData reqBody = Ok clean
    ∧ dom clean = dom reqBody
    ∧ (1 < size clean ∨ (∃ k, k ≠ "status" ∧ k ∈ dom clean)
       → needsFullValidation clean = true
         ∧ putValidation clean = validateBugData clean
         ∧ ∀ r, validateBugData clean = Ok r → isValid r = false
             → put now id reqBody = validationFailed (errors r))
    ∧ (dom clean = {["status"]} → truthy (get clean "status") = true
       → needsFullValidation clean = false
         ∧ ∃ k, put now id reqBody
                = Await (FindByIdAndUpdate id (<["updatedAt" := now]> clean)) k).
Proof.
  intros Hid. exists (sanitized reqBody).
  split; [apply sanitizeBugData_sanitized|].
  split; [apply dom_sanitized|].
  unfold put. rewrite Hid, sanitizeBugData_sanitized. cbn [negb].
  set (clean := sanitized reqBody). split.
  - intros Hkeys.
    assert (needsFullValidation clean = true) as Hneeds.
    { unfold needsFullValidation. apply orb_true_iff.
      destruct Hkeys as [Hsize|(k & Hne & Hk)].
      - left. by apply Nat.ltb_lt.
      - destruct (decide ("status" ∈ dom clean)) as [Hs|Hs].
        + left. apply Nat.ltb_lt. by apply (two_keys_size clean k).
        + right. apply not_elem_of_dom in Hs. unfold get. by rewrite Hs. }
    split; [done|]. unfold putValidation. rewrite Hneeds.
    split; [done|]. intros r -> Hinvalid. by rewrite Hinvalid.
  - intros Hdom Htruthy.
    assert (needsFullValidation clean = false) as Hneeds.
    { unfold needsFullValidation. rewrite Htruthy.
      rewrite <- size_dom, Hdom, size_singleton. done. }
    split; [done|]. unfold putValidation. rewrite Hneeds.
    cbn [isValid negb]. eauto.
Qed.

End RoutesContract.

(** The invalid-identifier requests of the integration tests. *)
Lemma malformed_id_rejected_before_store_witness :
  Routes.getById malformedId
    = Routes.errorJson 400 "Invalid bug ID format"
  ∧ Routes.put sampleNow malformedId statusOnlyBody
    = Routes.errorJson 400 "Invalid bug ID format"
  ∧ Routes.delete malformedId
    = Routes.errorJson 400 "Invalid bug ID format".
Proof.
  destruct (malformed_id_rejected_before_store sampleNow malformedId statusOnlyBody)
    as (Hget & Hput & Hdelete & _).
  - reflexivity.
  - split; [exact Hget|]. split; [exact Hput|exact Hdelete].
Defined.

(** A status-only update with a legal status goes to the store unvalidated;
    the PUT test's invalid body is answered 400 with its errors. *)
Lemma put_validation_rule_witness :
  (∃ k, Routes.put sampleNow validId statusOnlyBody
        = Routes.Await
            (Routes.FindByIdAndUpdate validId
               (<["updatedAt" := sampleNow]> statusOnlyBody)) k)
  ∧ Routes.put sampleNow validId emptyTitleBug
    = Routes.validationFailed [titleRequired].
Proof.
  split.
  - destruct (put_validation_rule sampleNow validId statusOnlyBody)
      as (clean & Hclean & _ & _ & Honly); [reflexivity|].
    assert (Ok clean = Ok statusOnlyBody) as [= ->]
      by (rewrite <- Hclean; vm_compute; reflexivity).
    apply Honly; reflexivity.
  - destruct (put_validation_rule sampleNow validId emptyTitleBug)
      as (clean & Hclean & _ & Hfull & _); [reflexivity|].
    assert (Ok clean = Ok emptyTitleBug) as [= ->]
      by (rewrite <- Hclean; vm_compute; reflexivity).
    refine (proj2 (proj2 (Hfull _))
              {| isValid := false; errors := [titleRequired] |} _ _).
    + left. vm_compute. lia.
    + vm_compute. reflexivity.
    + reflexivity.
Defined.

(** C4, as stated, fails on a falsy status: the sanitized body has [status]
    as its only key, and yet the full validator runs and the request is
    answered 400 with the errors of the missing fields. *)
Lemma falsy_status_only_is_validated :
  isValidObjectId validId = true
  ∧ sanitizeBugData emptyStatusBody = Ok emptyStatusBody
  ∧ dom emptyStatusBody = {["status"]}
  ∧ Routes.needsFullValidation emptyStatusBody = true
  ∧ Routes.put sampleNow validId emptyStatusBody
    = Routes.validationFailed
        [titleRequired; descriptionRequired; statusMessage; reporterRequired].
Proof.
  split; [by vm_compute|]. split; [by vm_compute|].
  split; [apply dom_singleton_L|]. split; by vm_compute.
Qed.

(** ** The client filter *)

Section ClientFilter.

Import BugList.

Implicit Types (s t : string) (b : Bug) (f : FilterSpec) (l : list Bug).

Lemma startsWith_prefix s t :
  startsWith s t = true ↔ ∃ post, s = t +:+ post.
Proof.
  revert s. induction t as [|c t IH]; intros s.
  - destruct s; simpl; split; eauto.
  - destruct s as [|d s]; simpl.
    + split; [done|]. by intros [post Hpost].
    + rewrite andb_true_iff, IH. split.
      * intros [Hc%Ascii.eqb_eq [post ->]]. subst. eauto.
      * intros [post [= -> ->]]. split; [apply Ascii.eqb_refl|eauto].
Qed.

Lemma includes_isSubstring s t : includes s t = true ↔ isSubstring t s.
Proof.
  unfold isSubstring. induction s as [|c s IH].
  - cbn [includes]. rewrite orb_false_r, startsWith_prefix. split.
    + intros [post Hpost]. by exists "", post.
    + intros (pre & post & Hs). destruct pre; [eauto|done].
  - cbn [includes]. rewrite orb_true_iff, startsWith_prefix, IH. split.
    + intros [[post Hpost]|(pre & post & ->)].
      * by exists "", post.
      * by exists (String c pre), post.
    + intros ([|d pre] & post & Hs).
      * left. eauto.
      * right. injection Hs as -> ->. eauto.
Qed.

Lemma toLowerCase_nonEmpty s : nonEmpty s = true → toLowerCase s ≠ "".
Proof. by destruct s. Qed.

Lemma nonEmpty_false s : nonEmpty s = false ↔ s = "".
Proof. unfold nonEmpty. rewrite negb_false_iff. apply eqb_empty_true. Qed.

Lemma isSubstring_of_empty t : isSubstring t "" → t = "".
Proof. intros ([|c pre] & post & Hs); [by destruct t|done]. Qed.

(** The search callback looks for the term in every searchable text. *)
Lemma searchMatches_spec (term : string) b :
  term ≠ "" →
  searchMatches term b = true
  ↔ ∃ text, text ∈ searchable b ∧ isSubstring term (toLowerCase text).
Proof.
  intros Hterm. unfold searchMatches, searchable.
  rewrite !orb_true_iff, !includes_isSubstring. split.
  - intros [[[[H|H]|H]|H]|H].
    + exists (title b). split; [|done]. apply list_elem_of_here.
    + exists (description b). split; [|done].
      apply list_elem_of_further, list_elem_of_here.
    + exists (reporter b). split; [|done].
      do 2 apply list_elem_of_further. apply list_elem_of_here.
    + destruct (assignee b) as [a|]; [|done].
      apply andb_true_iff in H as [_ H%includes_isSubstring].
      exists a. split; [|done].
      do 3 apply list_elem_of_further. apply list_elem_of_here.
    + destruct (tags b) as [ts|]; [|done].
      apply existsb_exists in H as (tag & Htag%list_elem_of_In & H).
      apply includes_isSubstring in H.
      exists tag. split; [|done].
      do 3 apply list_elem_of_further.
      apply elem_of_app. by right.
  - intros (text & Hin & Hsub).
    repeat (apply elem_of_cons in Hin as [->|Hin]); eauto 6.
    simpl in Hin. apply elem_of_app in Hin as [Hin|Hin].
    + left. right. destruct (assignee b) as [a|]; simpl in Hin.
      * apply list_elem_of_singleton in Hin as ->.
        apply andb_true_iff. split; [|by apply includes_isSubstring].
        destruct a; [|done]. by apply isSubstring_of_empty in Hsub.
      * by apply elem_of_nil in Hin.
    + right. destruct (tags b) as [ts|]; simpl in Hin.
      * apply existsb_exists. exists text.
        split; [by apply list_elem_of_In|by apply includes_isSubstring].
      * by apply elem_of_nil in Hin.
Qed.

Lemma filter_twice {A} (p q : A → bool) (xs : list A) :
  List.filter q (List.filter p xs) = List.filter (fun x => p x && q x) xs.
Proof.
  induction xs as [|x xs IH]; [done|].
  simpl. destruct (p x); simpl; [|done]. destruct (q x); by rewrite IH.
Qed.

Lemma filter_everything {A} (xs : list A) :
  xs = List.filter (fun _ => true) xs.
Proof. induction xs as [|x xs IH]; [done|]. simpl. by rewrite <- IH. Qed.

Lemma applyFilters_keeps (st : State) :
  filteredBugs (applyFilters st) = List.filter (keeps (filter st)) (bugs st).
Proof.
  unfold applyFilters, keeps. cbn [filteredBugs].
  destruct (nonEmpty (filter_status (filter st)));
    destruct (nonEmpty (filter_priority (filter st)));
    destruct (nonEmpty (filter_search (filter st)));
    cbv zeta; cbn [negb orb andb]; rewrite ?filter_twice;
    first [apply filter_everything
          |apply filter_ext; intros x; by rewrite ?andb_assoc, ?andb_true_r].
Qed.

Lemma keeps_satisfies f b : keeps f b = true ↔ satisfies f b.
Proof.
  unfold keeps, satisfies.
  rewrite !andb_true_iff, !orb_true_iff, !negb_true_iff, !nonEmpty_false,
    !String.eqb_eq.
  split; [intros [[Hs Hp] Hq]; split; [done|split; [done|]]
         |intros (Hs & Hp & Hq); split; [by split|]].
  - destruct Hq as [Hq|Hq]; [by left|right].
    destruct (nonEmpty (filter_search f)) eqn:Hne.
    + by apply searchMatches_spec; [apply toLowerCase_nonEmpty|].
    + apply nonEmpty_false in Hne. rewrite Hne in *. simpl in Hq.
      exists (title b). split; [apply list_elem_of_here|].
      by exists "", (toLowerCase (title b)).
  - destruct Hq as [Hq|Hq]; [by left|].
    destruct (nonEmpty (filter_search f)) eqn:Hne.
    + right. by apply searchMatches_spec; [apply toLowerCase_nonEmpty|].
    + left. by apply nonEmpty_false.
Qed.

Lemma elem_of_shown f l b : b ∈ shown f l ↔ b ∈ l ∧ satisfies f b.
Proof.
  unfold shown. rewrite applyFilters_keeps. cbn [bugs filter].
  rewrite list_elem_of_In, filter_In, <- list_elem_of_In.
  by rewrite keeps_satisfies.
Qed.

(** C9. The filtering effect leaves the list of records (and the filter)
    as they were and sets the shown list to the records that satisfy every
    non-empty criterion: equal status, equal priority, and the lowercased
    search term occurring in the lowercased title, description, reporter,
    assignee (when there is one) or some tag. The shown list is the input
    list filtered by that conjunction, hence a subsequence of it. With a
    status and a search term together, a record is shown exactly when it is
    shown under the status alone and under the search term alone. *)
Theorem client_filter_conjunction :
  (∀ st : State,
     bugs (applyFilters st) = bugs st
     ∧ filter (applyFilters st) = filter st
     ∧ (∃ keep : Bug → bool,
          (∀ b, keep b = true ↔ satisfies (filter st) b)
          ∧ filteredBugs (applyFilters st) = List.filter keep (bugs st))
     ∧ sublist (filteredBugs (applyFilters st)) (bugs st)
     ∧ ∀ b, b ∈ filteredBugs (applyFilters st)
            ↔ b ∈ bugs st ∧ satisfies (filter st) b)
  ∧ (∀ (l : list Bug) (wanted term : string) (b : Bug),
       b ∈ shown {| filter_status := wanted; filter_priority := "";
                    filter_search := term |} l
       ↔ b ∈ shown {| filter_status := wanted; filter_priority := "";
                      filter_search := "" |} l
         ∧ b ∈ shown {| filter_status := ""; filter_priority := "";
                        filter_search := term |} l).
Proof.
  split.
  - intros st. split; [done|]. split; [done|].
    split; [|split].
    + exists (keeps (filter st)).
      split; [intros b; apply keeps_satisfies|apply applyFilters_keeps].
    + rewrite applyFilters_keeps.
      induction (bugs st) as [|x xs IH]; simpl; [constructor|].
      destruct (keeps (filter st) x); by constructor.
    + intros b. rewrite applyFilters_keeps.
      rewrite list_elem_of_In, filter_In, <- list_elem_of_In.
      by rewrite keeps_satisfies.
  - intros l wanted term b. rewrite !elem_of_shown.
    unfold satisfies. cbn [filter_status filter_priority filter_search].
    split.
    + intros (Hin & Hs & _ & Hq). repeat split; auto.
    + intros [(Hin & Hs & _ & _) (_ & _ & _ & Hq)]. repeat split; auto.
Qed.

End ClientFilter.

(** The client's filtering tests: by status, and a search in another letter
    case that finds a title and a tag. *)
Example shown_open :
  shown {| BugList.filter_status := "open"; BugList.filter_priority := "";
           BugList.filter_search := "" |} mockBugs
  = [frontendBug; databaseBug].
Proof. reflexivity. Qed.

Example shown_search_any_case :
  shown {| BugList.filter_status := ""; BugList.filter_priority := "";
           BugList.filter_search := "BACKEND" |} mockBugs
  = [backendBug].
Proof. reflexivity. Qed.

Example shown_open_and_search :
  shown {| BugList.filter_status := "open"; BugList.filter_priority := "";
           BugList.filter_search := "bug" |} mockBugs
  = [frontendBug; databaseBug].
Proof. reflexivity. Qed.

(** The validator's unit tests on tags. *)
Example tags_errors_by_index :
  validateBugData
    {[ "title" := JStr "Test Bug";
       "description" := JStr "This is a test bug description";
       "reporter" := JStr "John Doe";
       "tags" := JArr [JStr "valid-tag"; JNum 123; JStr "another-valid"; JNull] ]}
  = Ok {| isValid := false;
          errors := ["Tag at index 1 must be a string";
                     "Tag at index 3 must be a string"] |}.
Proof. by vm_compute. Qed.

Example trim_examples :
  trim "  Test Bug  " = "Test Bug" ∧ trim "   " = "" ∧ trim "a b" = "a b".
Proof. by vm_compute. Qed.

(** * Further properties of the server's validation layer *)

Section TrimFacts.

Lemma length_trimStart_le (s : string) :
  String.length (trimStart s) ≤ String.length s.
Proof.
  induction s as [|c r IH]; simpl; [done|].
  destruct (isWhiteSpace c); simpl; lia.
Qed.

Lemma length_trimEnd_le (s : string) :
  String.length (trimEnd s) ≤ String.length s.
Proof.
  induction s as [|c r IH]; simpl; [done|].
  destruct (trimEnd r) as [|c' r']; [destruct (isWhiteSpace c)|];
    simpl in *; lia.
Qed.

Lemma length_trim_le (s : string) : String.length (trim s) ≤ String.length s.
Proof.
  unfold trim. etransitivity; [apply length_trimEnd_le|apply length_trimStart_le].
Qed.

Lemma trimValue_idem (v : JsValue) : trimValue (trimValue v) = trimValue v.
Proof. destruct v; simpl; try done. by rewrite trim_idem. Qed.

Lemma elem_of_specTags (l : list JsValue) (t : string) :
  t ∈ specTags l → cleanTag t.
Proof.
  unfold specTags. intros [Ht Hin]%list_elem_of_filter.
  apply list_elem_of_fmap in Hin as (s & -> & _).
  split; [done|apply trim_idem].
Qed.

Lemma omap_asText_texts (ts : list string) : omap asText (JStr <$> ts) = ts.
Proof. induction ts as [|t ts IH]; [done|]. simpl. f_equal. exact IH. Qed.

Lemma specTags_clean (ts : list string) :
  Forall cleanTag ts → specTags (JStr <$> ts) = ts.
Proof.
  unfold specTags. rewrite omap_asText_texts.
  induction 1 as [|t ts [Hne Htrim] _ IH]; [done|].
  cbn [fmap list_fmap]. rewrite Htrim.
  rewrite filter_cons_True by done. by rewrite IH.
Qed.

Lemma specTags_idem (l : list JsValue) :
  specTags (JStr <$> specTags l) = specTags l.
Proof.
  apply specTags_clean, Forall_forall. intros t. apply elem_of_specTags.
Qed.

Lemma cleanTags_idem (v : JsValue) : cleanTags (cleanTags v) = cleanTags v.
Proof. destruct v; simpl; try done. by rewrite specTags_idem. Qed.

Lemma lookup_sanitized (bugData : gmap string JsValue) (k : string) :
  sanitized bugData !! k
  = (if decide (k = "tags") then cleanTags
     else if decide (k ∈ trimmedFields) then trimValue
     else id) <$> bugData !! k.
Proof.
  destruct (decide (k = "tags")) as [->|Htags].
  - apply lookup_sanitized_tags.
  - destruct (decide (k ∈ trimmedFields)) as [Hk|Hk].
    + by apply lookup_sanitized_trimmed.
    + rewrite lookup_sanitized_other by done. by destruct (bugData !! k).
Qed.

Lemma sanitized_idem (bugData : gmap string JsValue) :
  sanitized (sanitized bugData) = sanitized bugData.
Proof.
  apply map_eq. intros k. rewrite !lookup_sanitized.
  destruct (bugData !! k) as [v|]; [|done]. simpl. f_equal.
  destruct (decide (k = "tags")); [apply cleanTags_idem|].
  destruct (decide (k ∈ trimmedFields)); [apply trimValue_idem|done].
Qed.

End TrimFacts.

(** X1. Sanitizing is idempotent: the sanitizer's output is a fixed point
    of the sanitizer. *)
Theorem sanitizeBugData_idempotent (bugData : gmap string JsValue) :
  ∃ out, sanitizeBugData bugData = Ok out ∧ sanitizeBugData out = Ok out.
Proof.
  exists (sanitized bugData). split; [apply sanitizeBugData_sanitized|].
  rewrite sanitizeBugData_sanitized. by rewrite sanitized_idem.
Qed.

(** X2. Whenever the sanitizer's output holds an array under [tags], each
    of its elements is text, not empty and with nothing left to trim; and
    validating the output never yields a per-index tag message. *)
Theorem sanitized_tags_are_clean (bugData : gmap string JsValue) :
  ∃ out r,
    sanitizeBugData bugData = Ok out
    ∧ validateBugData out = Ok r
    ∧ (∀ l, out !! "tags" = Some (JArr l)
            → Forall (λ v, ∃ t, v = JStr t ∧ cleanTag t) l)
    ∧ ∀ i, tagError i ∉ errors r.
Proof.
  exists (sanitized bugData). eexists.
  split; [apply sanitizeBugData_sanitized|].
  split; [apply validateBugData_blocks|]. cbn [errors].
  assert (∀ l, sanitized bugData !! "tags" = Some (JArr l)
               → Forall (λ v, ∃ t, v = JStr t ∧ cleanTag t) l) as Hclean.
  { intros l. rewrite lookup_sanitized_tags.
    destruct (bugData !! "tags") as [[| |b|q|s|l'|o]|]; simpl; try done.
    intros [= <-]. apply Forall_forall.
    intros v (t & -> & Ht)%list_elem_of_fmap.
    exists t. split; [done|]. by apply elem_of_specTags in Ht. }
  split; [exact Hclean|].
  intros i. rewrite !elem_of_app.
  intros [H|[H|[H|[H|[H|[H|H]]]]]].
  - apply titleErrors_elem in H.
    apply (tagError_fresh i). apply elem_of_app. by left.
  - apply descriptionErrors_elem in H.
    apply (tagError_fresh i). rewrite !elem_of_app. right. by left.
  - apply statusErrors_elem, list_elem_of_singleton in H.
    apply (tagError_fresh i). rewrite H.
    refine (bool_decide_unpack _ _). by vm_compute.
  - apply priorityErrors_elem, list_elem_of_singleton in H.
    apply (tagError_fresh i). rewrite H.
    refine (bool_decide_unpack _ _). by vm_compute.
  - apply reporterErrors_elem in H.
    apply (tagError_fresh i). rewrite !elem_of_app. do 3 right. by left.
  - apply assigneeErrors_elem, list_elem_of_singleton in H.
    apply (tagError_fresh i). rewrite H.
    refine (bool_decide_unpack _ _). by vm_compute.
  - unfold tagsErrors, get in H.
    destruct (sanitized bugData !! "tags") as [v|] eqn:Hv; simpl in H;
      [|by apply elem_of_nil in H].
    destruct v as [| |b|q|s|l|o]; simpl in H;
      try (destruct (negb _)); try (destruct b);
      try (by apply elem_of_nil in H);
      try (apply list_elem_of_singleton in H; apply (tagError_fresh i);
           rewrite H; refine (bool_decide_unpack _ _); by vm_compute).
    apply list_elem_of_fmap in H as (j & _ & Hj).
    apply elem_of_nonTextIndices in Hj as (v & Hv' & Htext).
    pose proof (Hclean l eq_refl) as Hall.
    rewrite Forall_forall in Hall.
    destruct (Hall v) as (t & -> & _); [|done].
    by apply list_elem_of_lookup_2 in Hv'.
Qed.

Section Acceptance.

Implicit Types (bugData : gmap string JsValue).

Lemma trim_nonblank_nonempty (s : string) : trim s ≠ "" → s ≠ "".
Proof. by intros H ->. Qed.

Lemma titleErrors_nil bugData :
  titleErrors bugData = []
  ↔ nonBlankText (get bugData "title") ∧ atMost 100 (get bugData "title").
Proof.
  unfold titleErrors, nonBlankText, atMost. split.
  - destruct (get bugData "title") as [| |b|q|s|l|o]; try done.
    destruct (decide (s = "")); [done|].
    destruct (decide (trim s = "")); [done|].
    destruct (decide (100 < String.length s)); [done|].
    intros _. split; [by exists s|]. intros s' [= <-]. lia.
  - intros [(s & -> & Hs) Hlen].
    pose proof (trim_nonblank_nonempty s Hs).
    pose proof (Hlen s eq_refl).
    destruct (decide (s = "")); [done|].
    destruct (decide (trim s = "")); [done|].
    destruct (decide (100 < String.length s)); [lia|done].
Qed.

Lemma descriptionErrors_nil bugData :
  descriptionErrors bugData = []
  ↔ nonBlankText (get bugData "description")
    ∧ atMost 1000 (get bugData "description").
Proof.
  unfold descriptionErrors, nonBlankText, atMost. split.
  - destruct (get bugData "description") as [| |b|q|s|l|o]; try done.
    destruct (decide (s = "")); [done|].
    destruct (decide (trim s = "")); [done|].
    destruct (decide (1000 < String.length s)); [done|].
    intros _. split; [by exists s|]. intros s' [= <-]. lia.
  - intros [(s & -> & Hs) Hlen].
    pose proof (trim_nonblank_nonempty s Hs).
    pose proof (Hlen s eq_refl).
    destruct (decide (s = "")); [done|].
    destruct (decide (trim s = "")); [done|].
    destruct (decide (1000 < String.length s)); [lia|done].
Qed.

Lemma statusErrors_nil bugData :
  statusErrors bugData = []
  ↔ get bugData "status" = JUndefined
    ∨ ∃ s, get bugData "status" = JStr s ∧ s ∈ validStatuses.
Proof.
  unfold statusErrors. split.
  - destruct (get bugData "status") as [| |b|q|s|l|o]; try done; [by left|].
    destruct (decide (s ∈ validStatuses)); [|done]. right. by exists s.
  - intros [->|(s & -> & Hs)]; [done|].
    by destruct (decide (s ∈ validStatuses)).
Qed.

Lemma priorityErrors_nil bugData :
  priorityErrors bugData = []
  ↔ truthy (get bugData "priority") = false
    ∨ ∃ s, get bugData "priority" = JStr s ∧ s ∈ validPriorities.
Proof.
  unfold priorityErrors. split.
  - destruct (get bugData "priority") as [| |b|q|s|l|o]; simpl;
      try done; try (by left).
    + destruct b; [done|by left].
    + destruct (negb _); [done|by left].
    + destruct (decide (s = "")) as [->|]; [by left|].
      destruct (decide (s ∈ validPriorities)); [|done]. right. by exists s.
  - intros [Hf|(s & -> & Hs)].
    + destruct (get bugData "priority") as [| |b|q|s|l|o]; simpl in *;
        rewrite ?Hf; try done.
      apply negb_false_iff, eqb_empty_true in Hf as ->. done.
    + destruct (decide (s = "")); [done|].
      by destruct (decide (s ∈ validPriorities)).
Qed.

Lemma reporterErrors_nil bugData :
  reporterErrors bugData = [] ↔ nonBlankText (get bugData "reporter").
Proof.
  unfold reporterErrors, nonBlankText. split.
  - destruct (get bugData "reporter") as [| |b|q|s|l|o]; try done.
    destruct (decide (s = "")); [done|].
    destruct (decide (trim s = "")); [done|].
    intros _. by exists s.
  - intros (s & -> & Hs).
    pose proof (trim_nonblank_nonempty s Hs).
    destruct (decide (s = "")); [done|].
    by destruct (decide (trim s = "")).
Qed.

Lemma assigneeErrors_nil bugData :
  assigneeErrors bugData = []
  ↔ truthy (get bugData "assignee") = false
    ∨ isText (get bugData "assignee") = true.
Proof.
  unfold assigneeErrors. split.
  - destruct (get bugData "assignee") as [| |b|q|s|l|o]; simpl;
      try done; try (by left); try (by right).
    + destruct b; [done|by left].
    + destruct (negb _); [done|by left].
  - intros [Hf|Ht];
      destruct (get bugData "assignee") as [| |b|q|s|l|o]; simpl in *;
      rewrite ?Hf; done.
Qed.

Lemma nonTextIndices_nil (l : list JsValue) :
  nonTextIndices l = [] ↔ Forall (λ v, isText v = true) l.
Proof.
  rewrite Forall_lookup. split.
  - intros Hnil i v Hv. destruct (isText v) eqn:Ht; [done|].
    assert (i ∈ nonTextIndices l) as Hin
      by (apply elem_of_nonTextIndices; eauto).
    rewrite Hnil in Hin. by apply elem_of_nil in Hin.
  - intros Hall. destruct (nonTextIndices l) as [|i rest] eqn:Hl; [done|].
    assert (i ∈ nonTextIndices l) as Hin by (rewrite Hl; left).
    apply elem_of_nonTextIndices in Hin as (v & Hv & Ht).
    rewrite (Hall i v Hv) in Ht. done.
Qed.

Lemma tagsErrors_nil bugData :
  tagsErrors bugData = []
  ↔ truthy (get bugData "tags") = false
    ∨ ∃ l, get bugData "tags" = JArr l ∧ Forall (λ v, isText v = true) l.
Proof.
  unfold tagsErrors. split.
  - destruct (get bugData "tags") as [| |b|q|s|l|o]; simpl;
      try done; try (by left).
    + destruct b; [done|by left].
    + destruct (negb _); [done|by left].
    + destruct (negb _) eqn:Hs; [done|by left].
    + intros Hnil%fmap_nil_inv. right. exists l.
      split; [done|]. by apply nonTextIndices_nil.
  - intros [Hf|(l & -> & Hall)].
    + destruct (get bugData "tags") as [| |b|q|s|l|o]; simpl in *;
        rewrite ?Hf; done.
    + apply nonTextIndices_nil in Hall. by rewrite Hall.
Qed.

Lemma blocks_nil_acceptable bugData :
  titleErrors bugData ++ descriptionErrors bugData
  ++ statusErrors bugData ++ priorityErrors bugData
  ++ reporterErrors bugData ++ assigneeErrors bugData
  ++ tagsErrors bugData = []
  ↔ acceptable bugData.
Proof.
  unfold acceptable.
  rewrite !app_nil, titleErrors_nil, descriptionErrors_nil, statusErrors_nil,
    priorityErrors_nil, reporterErrors_nil, assigneeErrors_nil, tagsErrors_nil.
  done.
Qed.

Lemma get_sanitized_tags bugData :
  get (sanitized bugData) "tags" = cleanTags (get bugData "tags").
Proof.
  unfold get. rewrite lookup_sanitized_tags. by destruct (bugData !! "tags").
Qed.

Lemma get_sanitized_other bugData (k : string) :
  k ∉ trimmedFields → k ≠ "tags" → get (sanitized bugData) k = get bugData k.
Proof. intros Hk Ht. unfold get. by rewrite lookup_sanitized_other. Qed.

Lemma nonBlankText_trimValue (v : JsValue) :
  nonBlankText v → nonBlankText (trimValue v).
Proof.
  intros (s & -> & Hs). exists (trim s). split; [done|]. by rewrite trim_idem.
Qed.

Lemma atMost_trimValue (limit : nat) (v : JsValue) :
  atMost limit v → atMost limit (trimValue v).
Proof.
  intros Hv s Hs. destruct v as [| |b|q|t|l|o]; simpl in Hs; try done.
  injection Hs as <-. pose proof (Hv t eq_refl). pose proof (length_trim_le t).
  lia.
Qed.

Lemma sanitized_acceptable bugData :
  acceptable bugData → acceptable (sanitized bugData).
Proof.
  unfold acceptable.
  intros ([Ht Htl] & [Hd Hdl] & Hs & Hp & Hr & Ha & Hg).
  assert (∀ k, k ∈ trimmedFields
            → get (sanitized bugData) k = trimValue (get bugData k)) as Htrim
    by (intros k Hk; by apply get_sanitized_trimmed).
  assert (∀ k, bool_decide (k ∈ trimmedFields) = true → k ∈ trimmedFields)
    as Hin by (intros k; apply bool_decide_eq_true).
  rewrite (Htrim "title"), (Htrim "description"), (Htrim "reporter"),
    (Htrim "assignee") by (apply Hin; by vm_compute).
  rewrite get_sanitized_tags.
  rewrite (get_sanitized_other bugData "status"),
    (get_sanitized_other bugData "priority")
    by (try discriminate; refine (proj1 (bool_decide_eq_false _) _);
        by vm_compute).
  split; [split; [by apply nonBlankText_trimValue|by apply atMost_trimValue]|].
  split; [split; [by apply nonBlankText_trimValue|by apply atMost_trimValue]|].
  split; [done|]. split; [done|].
  split; [by apply nonBlankText_trimValue|].
  split.
  - destruct (get bugData "assignee") as [| |b|q|s|l|o]; simpl in *;
      try done. by right.
  - destruct Hg as [Hf|(l & -> & Hall)].
    + left. by destruct (get bugData "tags") as [| |b|q|s|l|o].
    + right. simpl. eexists. split; [done|].
      apply Forall_forall. by intros v (t & -> & _)%list_elem_of_fmap.
Qed.

End Acceptance.

(** X3. The validator accepts a mapping exactly when: title is non-blank
    text of at most 100 characters; description is non-blank text of at
    most 1000 characters; status is absent or one of the four legal values;
    priority is falsy or one of its four legal values; reporter is non-blank
    text; assignee is falsy or text; tags is falsy or an array of texts. *)
Theorem validateBugData_accepts_iff (bugData : gmap string JsValue) :
  ∃ r, validateBugData bugData = Ok r
    ∧ (isValid r = true ↔ acceptable bugData).
Proof.
  eexists. split; [apply validateBugData_blocks|]. cbn [isValid].
  by rewrite Nat.eqb_eq, length_zero_iff_nil, blocks_nil_acceptable.
Qed.

(** X4. Sanitizing never turns an accepted mapping into a rejected one:
    what the validator accepts as sent, it accepts once sanitized, so POST
    and PUT, which validate the sanitized body, do not reject it. *)
Theorem sanitize_preserves_validity (bugData : gmap string JsValue)
    (r : ValidationResult) :
  validateBugData bugData = Ok r → isValid r = true →
  ∃ out r', sanitizeBugData bugData = Ok out
    ∧ validateBugData out = Ok r'
    ∧ isValid r' = true.
Proof.
  rewrite validateBugData_blocks. intros [= <-]. cbn [isValid].
  rewrite Nat.eqb_eq, length_zero_iff_nil, blocks_nil_acceptable. intros Hacc.
  exists (sanitized bugData). eexists.
  split; [apply sanitizeBugData_sanitized|].
  split; [apply validateBugData_blocks|]. cbn [isValid].
  rewrite Nat.eqb_eq, length_zero_iff_nil, blocks_nil_acceptable.
  by apply sanitized_acceptable.
Qed.

(** A valid record with padded texts stays valid once sanitized. *)
Lemma sanitize_preserves_validity_witness :
  ∃ out r', sanitizeBugData paddedBug = Ok out
    ∧ validateBugData out = Ok r'
    ∧ isValid r' = true.
Proof.
  apply (sanitize_preserves_validity paddedBug
           {| isValid := true; errors := [] |}); reflexivity.
Defined.

(** * Further properties of the route handlers *)

Section RoutesLaws.

Import Routes.

Context {Store : Type}.
Variable exec : DbOp → Store → DbResult * Store.

Implicit Types (id : string) (reqBody clean : gmap string JsValue)
  (now : JsValue) (db : Store).

Lemma errorJson_shape (code : nat) (msg : string) db :
  msg ≠ "" →
  ∃ r, run exec (errorJson code msg) db = (r, [], db)
    ∧ status r = code ∧ errorBody (body r).
Proof.
  intros Hmsg. eexists. split; [done|]. split; [done|].
  eexists _, msg. split; [done|]. split; [apply lookup_singleton_eq|done].
Qed.

Lemma validationFailed_shape (errs : list string) db :
  ∃ r, run exec (validationFailed errs) db = (r, [], db)
    ∧ status r = 400 ∧ errorBody (body r).
Proof.
  eexists. split; [done|]. split; [done|].
  eexists _, "Validation failed". split; [done|].
  split; [apply lookup_insert_eq|done].
Qed.

(** What PUT does once the identifier is accepted, by the verdict on the
    sanitized body. *)
Lemma put_valid_id now id reqBody :
  isValidObjectId id = true →
  (∃ errs, put now id reqBody = validationFailed errs)
  ∨ put now id reqBody
    = Await (FindByIdAndUpdate id (<["updatedAt" := now]> (sanitized reqBody)))
        (fun updatedBug =>
           match updatedBug with
           | DbRejected => internalError
           | DbNull => errorJson 404 "Bug not found"
           | DbDoc updatedBug => json (JObj updatedBug)
           end).
Proof.
  intros Hid. unfold put, putValidation.
  rewrite Hid, sanitizeBugData_sanitized. cbn [negb].
  destruct (needsFullValidation (sanitized reqBody)); [|by right].
  rewrite validateBugData_blocks. cbn [isValid errors].
  destruct (length _ =? 0); cbn [negb]; [by right|left; eauto].
Qed.

Lemma post_cases reqBody :
  (∃ errs, post reqBody = validationFailed errs)
  ∨ (post reqBody
     = Await (Save (sanitized reqBody))
         (fun savedBug =>
            match savedBug with
            | DbDoc savedBug => Respond {| status := 201; body := JObj savedBug |}
            | _ => internalError
            end)
     ∧ acceptable (sanitized reqBody)).
Proof.
  unfold post. rewrite sanitizeBugData_sanitized, validateBugData_blocks.
  cbn [isValid errors].
  destruct (length _ =? 0) eqn:Hlen; cbn [negb]; [right|left; eauto].
  split; [done|].
  by apply Nat.eqb_eq, length_zero_iff_nil, blocks_nil_acceptable in Hlen.
Qed.

(** X5. POST never hands the store anything but the sanitized body, and
    only when the validator accepts it: against every store a POST performs
    either no store operation (and answers 400) or the single operation
    [Save] of the sanitized body, which the validator accepts. *)
Theorem post_stores_only_valid reqBody db :
  ∃ clean r,
    sanitizeBugData reqBody = Ok clean
    ∧ validateBugData clean = Ok r
    ∧ (isValid r = false
       → operations exec (post reqBody) db = []
         ∧ response exec (post reqBody) db
           = {| status := 400;
                body := JObj {[ "error" := JStr "Validation failed";
                                "details" := JArr (JStr <$> errors r) ]} |})
    ∧ (isValid r = true
       → operations exec (post reqBody) db = [Save clean]
         ∧ acceptable clean
         ∧ ∀ doc db', exec (Save clean) db = (DbDoc doc, db')
             → response exec (post reqBody) db
               = {| status := 201; body := JObj doc |}).
Proof.
  exists (sanitized reqBody). eexists.
  split; [apply sanitizeBugData_sanitized|].
  split; [apply validateBugData_blocks|].
  unfold operations, response, post.
  rewrite sanitizeBugData_sanitized, validateBugData_blocks.
  cbn [isValid errors]. split.
  - intros ->. done.
  - intros Hvalid. rewrite Hvalid. cbn [negb run].
    split; [|split].
    + destruct (exec _ db) as [[doc| |] db']; done.
    + by apply Nat.eqb_eq, length_zero_iff_nil, blocks_nil_acceptable in Hvalid.
    + intros doc db' ->. done.
Qed.


Lemma errorJson_ok (code : nat) (msg : string) db :
  code ∈ statusCodes → msg ≠ "" →
  status (response exec (errorJson code msg) db) ∈ statusCodes
  ∧ (400 ≤ status (response exec (errorJson code msg) db)
     → errorBody (body (response exec (errorJson code msg) db))).
Proof.
  intros Hcode Hmsg. unfold response.
  destruct (errorJson_shape code msg db Hmsg) as (r & -> & <- & Hbody).
  by split.
Qed.

Lemma validationFailed_ok (errs : list string) db :
  status (response exec (validationFailed errs) db) ∈ statusCodes
  ∧ (400 ≤ status (response exec (validationFailed errs) db)
     → errorBody (body (response exec (validationFailed errs) db))).
Proof.
  unfold response.
  destruct (validationFailed_shape errs db) as (r & -> & Hs & Hbody).
  cbn [fst]. rewrite Hs. split; [|done].
  refine (bool_decide_unpack _ _). by vm_compute.
Qed.

(** X7. Whatever the store does, a handler answers with one of the status
    codes 200, 201, 400, 404, 500, and every answer of status 400 or above
    carries a body with a non-empty [error] text. *)
Theorem responses_are_well_formed now id reqBody db :
  Forall
    (λ h, status (response exec h db) ∈ statusCodes
          ∧ (400 ≤ status (response exec h db)
             → errorBody (body (response exec h db))))
    [getById id; post reqBody; put now id reqBody; delete id].
Proof.
  assert (∀ n, bool_decide (n ∈ statusCodes) = true → n ∈ statusCodes)
    as Hcode by (intros n; apply bool_decide_eq_true).
  repeat apply Forall_cons_2; [| | | |apply Forall_nil_2].
  - unfold getById. destruct (isValidObjectId id); cbn [negb];
      [|by apply errorJson_ok; [apply Hcode|]].
    unfold response. cbn [run].
    destruct (exec _ db) as [[doc| |] db'] eqn:Hexec.
    + simpl. split; [by apply Hcode|lia].
    + by apply (errorJson_ok 404 _ db'); [apply Hcode|].
    + by apply (errorJson_ok 500 _ db'); [apply Hcode|].
  - destruct (post_cases reqBody) as [[errs ->]|[-> _]];
      [apply validationFailed_ok|].
    unfold response. cbn [run].
    destruct (exec _ db) as [[doc| |] db'] eqn:Hexec.
    + simpl. split; [by apply Hcode|lia].
    + by apply (errorJson_ok 500 _ db'); [apply Hcode|].
    + by apply (errorJson_ok 500 _ db'); [apply Hcode|].
  - destruct (isValidObjectId id) eqn:Hid.
    + destruct (put_valid_id now id reqBody Hid) as [[errs ->]| ->];
        [apply validationFailed_ok|].
      unfold response. cbn [run].
      destruct (exec _ db) as [[doc| |] db'] eqn:Hexec.
      * simpl. split; [by apply Hcode|lia].
      * by apply (errorJson_ok 404 _ db'); [apply Hcode|].
      * by apply (errorJson_ok 500 _ db'); [apply Hcode|].
    + unfold put. rewrite Hid. cbn [negb].
      by apply errorJson_ok; [apply Hcode|].
  - unfold delete. destruct (isValidObjectId id); cbn [negb];
      [|by apply errorJson_ok; [apply Hcode|]].
    unfold response. cbn [run].
    destruct (exec _ db) as [[doc| |] db'] eqn:Hexec.
    + simpl. split; [by apply Hcode|lia].
    + by apply (errorJson_ok 404 _ db'); [apply Hcode|].
    + by apply (errorJson_ok 500 _ db'); [apply Hcode|].
Qed.

(** X8. The only document PUT ever sends to the store is the sanitized
    request body stamped with the handler's own [updatedAt]: a client's
    [updatedAt] is overwritten, every other key is forwarded as
    sanitized. *)
Theorem put_sends_stamped_sanitized_body now id reqBody db :
  ∃ clean,
    sanitizeBugData reqBody = Ok clean
    ∧ ∀ op, op ∈ operations exec (put now id reqBody) db
        → ∃ update,
            op = FindByIdAndUpdate id update
            ∧ update !! "updatedAt" = Some now
            ∧ ∀ k, k ≠ "updatedAt" → update !! k = clean !! k.
Proof.
  exists (sanitized reqBody). split; [apply sanitizeBugData_sanitized|].
  unfold operations. destruct (isValidObjectId id) eqn:Hid.
  - destruct (put_valid_id now id reqBody Hid) as [[errs ->]| ->];
      [by intros op Hop%elem_of_nil|].
    cbn [run]. intros op Hop.
    assert (op = FindByIdAndUpdate id (<["updatedAt" := now]> (sanitized reqBody)))
      as ->.
    { destruct (exec _ db) as [[doc| |] db']; simpl in Hop;
        by apply list_elem_of_singleton in Hop. }
    eexists. split; [done|]. split; [apply lookup_insert_eq|].
    intros k Hk. by apply lookup_insert_ne.
  - unfold put. rewrite Hid. by intros op Hop%elem_of_nil.
Qed.

(** X9. PUT is no partial update: with a well-formed identifier, a body
    that has more than one key, or no [status], and that lacks [title],
    [description] or [reporter], is answered 400 with a non-empty error
    list, and nothing is sent to the store. *)
Theorem put_rejects_partial_update now id reqBody db :
  isValidObjectId id = true →
  1 < size reqBody ∨ reqBody !! "status" = None →
  reqBody !! "title" = None ∨ reqBody !! "description" = None
  ∨ reqBody !! "reporter" = None →
  ∃ errs, errs ≠ []
    ∧ put now id reqBody = validationFailed errs
    ∧ operations exec (put now id reqBody) db = [].
Proof.
  intros Hid Hkeys Hmissing. unfold operations, put, putValidation.
  rewrite Hid, sanitizeBugData_sanitized. cbn [negb].
  assert (needsFullValidation (sanitized reqBody) = true) as ->.
  { unfold needsFullValidation. apply orb_true_iff.
    destruct Hkeys as [Hsize|Hnone].
    - left. apply Nat.ltb_lt.
      by rewrite <- size_dom, dom_sanitized, size_dom.
    - right. unfold get.
      rewrite lookup_sanitized_other, Hnone;
        [done|refine (proj1 (bool_decide_eq_false _) _); by vm_compute|done]. }
  rewrite validateBugData_blocks. cbn [isValid errors].
  destruct (length _ =? 0) eqn:Hlen.
  - apply Nat.eqb_eq, length_zero_iff_nil, blocks_nil_acceptable in Hlen.
    destruct Hlen as ([(t & Ht & _) _] & [(d & Hd & _) _] & _ & _
                      & (p & Hp & _) & _).
    assert (∀ k, bool_decide (k ∈ trimmedFields) = true → k ∈ trimmedFields)
      as Hin by (intros k; apply bool_decide_eq_true).
    rewrite get_sanitized_trimmed in Ht, Hd, Hp by (apply Hin; by vm_compute).
    unfold get in Ht, Hd, Hp.
    destruct Hmissing as [Hm|[Hm|Hm]]; rewrite Hm in *; done.
  - cbn [negb]. eexists. split; [|split; [done|done]].
    intros Hnil. rewrite Hnil in Hlen. done.
Qed.

End RoutesLaws.

(** Two fields of an update without the required ones: rejected. *)
Lemma put_rejects_partial_update_witness :
  ∃ errs, errs ≠ []
    ∧ Routes.put sampleNow validId partialUpdate = Routes.validationFailed errs
    ∧ operations emptyStore (Routes.put sampleNow validId partialUpdate) tt = [].
Proof.
  apply (put_rejects_partial_update emptyStore sampleNow validId partialUpdate tt).
  - reflexivity.
  - left. vm_compute. lia.
  - left. reflexivity.
Defined.

(** * Further properties of the client *)

Section FormLaws.

Import BugForm.

Implicit Types (st : State) (data : FormData).

Lemma validateForm_true st :
  (validateForm st).2 = true
  ↔ (trim (title (formData st)) ≠ "" ∧ String.length (title (formData st)) ≤ 100)
    ∧ (trim (description (formData st)) ≠ ""
       ∧ String.length (description (formData st)) ≤ 1000)
    ∧ trim (reporter (formData st)) ≠ "".
Proof.
  unfold validateForm. cbn [snd]. rewrite Nat.eqb_eq, map_size_empty_iff.
  unfold BugList.nonEmpty. rewrite !negb_involutive.
  destruct (String.eqb (trim (title (formData st))) "") eqn:Ht;
    [|destruct (Nat.ltb_spec 100 (String.length (title (formData st))))];
    (destruct (String.eqb (trim (description (formData st))) "") eqn:Hd;
     [|destruct (Nat.ltb_spec 1000 (String.length (description (formData st))))]);
    destruct (String.eqb (trim (reporter (formData st))) "") eqn:Hr;
    rewrite ?String.eqb_eq, ?String.eqb_neq in *;
    (split; [intros Hempty|intros ([? ?] & [? ?] & ?)]);
    try (by apply insert_non_empty in Hempty); try done; try lia.
Qed.

Lemma handleSubmit_some st data :
  (handleSubmit st).2 = Some data
  ↔ (validateForm st).2 = true ∧ data = formData st.
Proof.
  unfold handleSubmit. destruct (validateForm st) as [st' ok] eqn:Hv.
  assert (formData st' = formData st) as Hsame
    by (unfold validateForm in Hv; by injection Hv as <- _).
  destruct ok; cbn [negb snd]; rewrite ?Hsame; split;
    try (intros [= <-]); try (intros [? ->]); done.
Qed.

Lemma get_body data :
  get (Api.body data) "title" = JStr (title data)
  ∧ get (Api.body data) "description" = JStr (description data)
  ∧ get (Api.body data) "status" = JStr (status data)
  ∧ get (Api.body data) "priority" = JStr (priority data)
  ∧ get (Api.body data) "reporter" = JStr (reporter data)
  ∧ get (Api.body data) "assignee" = JStr (assignee data)
  ∧ get (Api.body data) "tags" = JArr (JStr <$> tags data).
Proof. unfold Api.body, get. repeat split; by simplify_map_eq. Qed.

(** X10. What the form lets through, the server does not refuse for its
    texts: when handleSubmit hands data to [onSubmit], sanitizing and
    validating the request body made of that data yields no error other
    than, possibly, the status and the priority message; with a legal
    status and an empty or legal priority the body is accepted. *)
Theorem form_accepted_is_server_ready st data :
  (handleSubmit st).2 = Some data →
  ∃ clean r,
    sanitizeBugData (Api.body data) = Ok clean
    ∧ validateBugData clean = Ok r
    ∧ Validation.errors r ⊆ [statusMessage; priorityMessage]
    ∧ (status data ∈ validStatuses
       → priority data = "" ∨ priority data ∈ validPriorities
       → isValid r = true).
Proof.
  intros [Hok ->]%handleSubmit_some.
  apply validateForm_true in Hok as ([Ht Htl] & [Hd Hdl] & Hr).
  set (data := formData st) in *.
  destruct (get_body data) as (Bt & Bd & Bs & Bp & Br & Ba & Bg).
  exists (sanitized (Api.body data)). eexists.
  split; [apply sanitizeBugData_sanitized|].
  split; [apply validateBugData_blocks|]. cbn [isValid Validation.errors].
  assert (∀ k, bool_decide (k ∈ trimmedFields) = true → k ∈ trimmedFields)
    as Hin by (intros k; apply bool_decide_eq_true).
  pose proof (get_sanitized_trimmed (Api.body data) "title"
                (Hin "title" eq_refl)) as St.
  pose proof (get_sanitized_trimmed (Api.body data) "description"
                (Hin "description" eq_refl)) as Sd.
  pose proof (get_sanitized_trimmed (Api.body data) "reporter"
                (Hin "reporter" eq_refl)) as Sr.
  pose proof (get_sanitized_trimmed (Api.body data) "assignee"
                (Hin "assignee" eq_refl)) as Sa.
  pose proof (get_sanitized_tags (Api.body data)) as Sg.
  rewrite Bt in St. rewrite Bd in Sd. rewrite Br in Sr. rewrite Ba in Sa.
  rewrite Bg in Sg. simpl in St, Sd, Sr, Sa, Sg.
  assert (titleErrors (sanitized (Api.body data)) = []) as ->.
  { apply titleErrors_nil. rewrite St. split.
    - exists (trim (title data)). by rewrite trim_idem.
    - intros s [= <-]. pose proof (length_trim_le (title data)). lia. }
  assert (descriptionErrors (sanitized (Api.body data)) = []) as ->.
  { apply descriptionErrors_nil. rewrite Sd. split.
    - exists (trim (description data)). by rewrite trim_idem.
    - intros s [= <-]. pose proof (length_trim_le (description data)). lia. }
  assert (reporterErrors (sanitized (Api.body data)) = []) as ->.
  { apply reporterErrors_nil. rewrite Sr.
    exists (trim (reporter data)). by rewrite trim_idem. }
  assert (assigneeErrors (sanitized (Api.body data)) = []) as ->.
  { apply assigneeErrors_nil. rewrite Sa. by right. }
  assert (tagsErrors (sanitized (Api.body data)) = []) as ->.
  { apply tagsErrors_nil. rewrite Sg. right. eexists. split; [done|].
    apply Forall_forall. by intros v (t & -> & _)%list_elem_of_fmap. }
  rewrite !app_nil_l, !app_nil_r. split.
  - intros e [He|He]%elem_of_app.
    + apply statusErrors_elem, list_elem_of_singleton in He as ->. left.
    + apply priorityErrors_elem, list_elem_of_singleton in He as ->.
      right. left.
  - intros Hs Hp.
    assert (statusErrors (sanitized (Api.body data)) = []) as ->.
    { apply statusErrors_nil. right. exists (status data). split; [|done].
      rewrite get_sanitized_other;
        [done|refine (proj1 (bool_decide_eq_false _) _); by vm_compute|done]. }
    assert (priorityErrors (sanitized (Api.body data)) = []) as ->.
    { apply priorityErrors_nil.
      rewrite get_sanitized_other;
        [|refine (proj1 (bool_decide_eq_false _) _); by vm_compute|done].
      rewrite Bp. destruct Hp as [->|Hp]; [by left|].
      right. by exists (priority data). }
    done.
Qed.

Lemma tagsInclude_elem_of (l : list string) (tag : string) :
  tagsInclude l tag = true ↔ tag ∈ l.
Proof.
  unfold tagsInclude. rewrite existsb_exists. split.
  - intros (t & Ht%list_elem_of_In & Heq%String.eqb_eq). by subst.
  - intros Hin. exists tag.
    split; [by apply list_elem_of_In|apply String.eqb_refl].
Qed.

Lemma removed_elem_of (l : list string) (tag t : string) :
  t ∈ List.filter (fun x => negb (String.eqb x tag)) l ↔ t ∈ l ∧ t ≠ tag.
Proof.
  rewrite list_elem_of_In, filter_In, <- list_elem_of_In.
  by rewrite negb_true_iff, String.eqb_neq.
Qed.

Lemma removed_NoDup (l : list string) (tag : string) :
  NoDup l → NoDup (List.filter (fun x => negb (String.eqb x tag)) l).
Proof.
  induction 1 as [|t l Hnotin Hnd IH]; simpl; [constructor|].
  destruct (negb (String.eqb t tag)); [|done].
  constructor; [|done]. rewrite removed_elem_of. by intros [? _].
Qed.

(** X11. The form's tag list stays clean: if it holds no duplicate and
    only non-empty, trimmed tags, it still does after handleAddTag and
    after handleRemoveTag; a removed tag is gone, and the others stay. *)
Theorem form_tags_stay_clean st (tagToRemove : string) :
  NoDup (tags (formData st)) →
  Forall cleanTag (tags (formData st)) →
  (NoDup (tags (formData (handleAddTag st)))
   ∧ Forall cleanTag (tags (formData (handleAddTag st))))
  ∧ (NoDup (tags (formData (handleRemoveTag tagToRemove st)))
     ∧ Forall cleanTag (tags (formData (handleRemoveTag tagToRemove st)))
     ∧ ∀ t, t ∈ tags (formData (handleRemoveTag tagToRemove st))
            ↔ t ∈ tags (formData st) ∧ t ≠ tagToRemove).
Proof.
  intros Hnd Hclean. split.
  - unfold handleAddTag.
    destruct (BugList.nonEmpty (trim (tagInput st))) eqn:Hne; [|done].
    destruct (tagsInclude _ _) eqn:Hin; cbn [negb andb]; [done|].
    cbn [formData tags withTags]. split.
    + apply NoDup_app. split; [done|]. split; [|apply NoDup_singleton].
      intros t Ht ->%list_elem_of_singleton.
      apply tagsInclude_elem_of in Ht. congruence.
    + apply Forall_app. split; [done|]. apply Forall_singleton.
      split; [|apply trim_idem].
      intros Hempty. rewrite Hempty in Hne. done.
  - cbn [handleRemoveTag formData tags withTags].
    split; [by apply removed_NoDup|]. split; [|apply removed_elem_of].
    apply Forall_forall. intros t [Ht _]%removed_elem_of.
    rewrite Forall_forall in Hclean. by apply Hclean.
Qed.

(** X12. Adding a tag and removing it again gives back the tag list: when
    the trimmed input is not empty and not yet a tag, handleAddTag appends
    it and clears the input, and handleRemoveTag of it restores the list;
    a blank or already present input changes nothing. *)
Theorem form_tag_add_then_remove st :
  (trim (tagInput st) ≠ "" → trim (tagInput st) ∉ tags (formData st)
   → tags (formData (handleAddTag st))
       = tags (formData st) ++ [trim (tagInput st)]
     ∧ tagInput (handleAddTag st) = ""
     ∧ tags (formData (handleRemoveTag (trim (tagInput st)) (handleAddTag st)))
       = tags (formData st))
  ∧ (trim (tagInput st) = "" ∨ trim (tagInput st) ∈ tags (formData st)
     → handleAddTag st = st).
Proof.
  split.
  - intros Hne Hnotin. unfold handleAddTag.
    assert (BugList.nonEmpty (trim (tagInput st)) = true) as ->
      by (by apply negb_true_iff, String.eqb_neq).
    assert (tagsInclude (tags (formData st)) (trim (tagInput st)) = false)
      as ->.
    { destruct (tagsInclude _ _) eqn:Hin; [|done].
      by apply tagsInclude_elem_of in Hin. }
    cbn [negb andb handleRemoveTag formData tags withTags tagInput].
    split; [done|]. split; [done|].
    rewrite List.filter_app. simpl. rewrite String.eqb_refl. simpl.
    rewrite app_nil_r.
    induction (tags (formData st)) as [|t l IH]; [done|].
    apply not_elem_of_cons in Hnotin as [Hneq Hnotin].
    simpl. assert (String.eqb t (trim (tagInput st)) = false) as ->
      by (by apply String.eqb_neq).
    simpl. by rewrite IH.
  - intros [Hblank|Hin]; unfold handleAddTag.
    + by rewrite Hblank.
    + apply tagsInclude_elem_of in Hin. rewrite Hin.
      by rewrite andb_false_r.
Qed.

End FormLaws.

(** A filled form with padded texts goes through to an accepted body. *)
Lemma form_accepted_is_server_ready_witness :
  ∃ clean r,
    sanitizeBugData (Api.body filledForm) = Ok clean
    ∧ validateBugData clean = Ok r
    ∧ isValid r = true.
Proof.
  destruct (form_accepted_is_server_ready filledState filledForm)
    as (clean & r & Hc & Hr & _ & Hvalid); [reflexivity|].
  exists clean, r. split; [exact Hc|]. split; [exact Hr|].
  apply Hvalid.
  - refine (bool_decide_unpack _ _). vm_compute. exact I.
  - right. refine (bool_decide_unpack _ _). vm_compute. exact I.
Defined.

(** The sample form: two clean tags, a third one typed with blanks. *)
Lemma form_tags_stay_clean_witness :
  BugForm.tags (BugForm.formData (BugForm.handleAddTag filledState))
    = ["auth"; "ui"; "backend"]
  ∧ NoDup (BugForm.tags (BugForm.formData (BugForm.handleAddTag filledState))).
Proof.
  split; [reflexivity|].
  refine (proj1 (proj1 (form_tags_stay_clean filledState "ui" _ _))).
  - refine (bool_decide_unpack _ _). vm_compute. exact I.
  - repeat constructor; discriminate.
Defined.

Section ListLaws.

Import BugList.

Implicit Types (f : FilterSpec) (l : list Bug) (b : Bug).

Lemma shown_keeps f l : shown f l = List.filter (keeps f) l.
Proof. unfold shown. by rewrite applyFilters_keeps. Qed.

Lemma toLowerCase_empty (s : string) : toLowerCase s = "" ↔ s = "".
Proof. by destruct s. Qed.

(** X13. The search does not depend on the letter case of the term: two
    terms with the same lowercase form show the same records. *)
Theorem search_ignores_case_of_term f (term1 term2 : string) l :
  toLowerCase term1 = toLowerCase term2 →
  shown (withSearch f term1) l = shown (withSearch f term2) l.
Proof.
  intros Hsame. rewrite !shown_keeps. apply filter_ext. intros b.
  unfold keeps, withSearch. cbn [filter_status filter_priority filter_search].
  rewrite Hsame. do 3 f_equal. unfold nonEmpty. f_equal.
  destruct term1, term2; simpl in *; done.
Qed.

(** X14. A record that App puts at the head of the list on creation shows
    up at the head of the filtered list when it satisfies the filter, and
    not at all otherwise; the records shown before stay as they were. More
    generally the shown list of a concatenation is the concatenation of the
    shown lists. *)
Theorem created_record_is_filtered_alone f (newBug : Bug) (prev l1 l2 : list Bug) :
  (satisfies f newBug
   → shown f (App.created newBug prev) = newBug :: shown f prev)
  ∧ (¬ satisfies f newBug
     → shown f (App.created newBug prev) = shown f prev)
  ∧ shown f (l1 ++ l2) = shown f l1 ++ shown f l2.
Proof.
  rewrite !shown_keeps. unfold App.created. cbn [List.filter].
  split; [|split].
  - intros Hsat%keeps_satisfies. by rewrite Hsat.
  - intros Hnot. destruct (keeps f newBug) eqn:Hk; [|done].
    by apply keeps_satisfies in Hk.
  - apply List.filter_app.
Qed.

End ListLaws.

Section AppLaws.

Context {Rec : Type}.
Variable _id : Rec → string.

Implicit Types (bug newBug updatedBug : Rec) (prev : list Rec)
  (id bugId : string).

Lemma elem_of_deleted bugId prev bug :
  bug ∈ App.deleted _id bugId prev ↔ bug ∈ prev ∧ _id bug ≠ bugId.
Proof.
  unfold App.deleted.
  rewrite list_elem_of_In, filter_In, <- list_elem_of_In.
  by rewrite negb_true_iff, String.eqb_neq.
Qed.

Lemma deleted_absent bugId prev :
  bugId ∉ _id <$> prev → App.deleted _id bugId prev = prev.
Proof.
  unfold App.deleted. induction prev as [|bug prev IH]; [done|].
  cbn [fmap list_fmap]. intros [Hne Hnotin]%not_elem_of_cons. simpl.
  assert (String.eqb (_id bug) bugId = false) as ->
    by (apply String.eqb_neq; congruence).
  simpl. by rewrite IH.
Qed.

(** X15. After handleDeleteBug's update no record with the deleted
    identifier is left, every other record stays, in the same order; and
    deleting a record just created under a fresh identifier gives back the
    list as it was. *)
Theorem deleted_removes_exactly bugId prev newBug :
  (∀ bug, bug ∈ App.deleted _id bugId prev ↔ bug ∈ prev ∧ _id bug ≠ bugId)
  ∧ sublist (App.deleted _id bugId prev) prev
  ∧ (_id newBug ∉ _id <$> prev
     → App.deleted _id (_id newBug) (App.created newBug prev) = prev).
Proof.
  split; [intros bug; apply elem_of_deleted|]. split.
  - unfold App.deleted. induction prev as [|bug prev IH]; simpl; [constructor|].
    destruct (negb _); by constructor.
  - intros Hfresh. unfold App.created.
    change (App.deleted _id (_id newBug) (newBug :: prev))
      with (if negb (String.eqb (_id newBug) (_id newBug))
            then newBug :: App.deleted _id (_id newBug) prev
            else App.deleted _id (_id newBug) prev).
    rewrite String.eqb_refl. cbn [negb]. by apply deleted_absent.
Qed.

(** X16. handleUpdateBug's update keeps the length of the list, puts the
    returned record at every position whose identifier is the edited one and
    leaves the other positions alone; when the returned record carries the
    edited identifier, the identifiers of the list are unchanged, position
    by position. *)
Theorem updated_replaces_in_place id updatedBug prev :
  length (App.updated _id id updatedBug prev) = length prev
  ∧ (∀ i bug, prev !! i = Some bug
       → App.updated _id id updatedBug prev !! i
         = Some (if decide (_id bug = id) then updatedBug else bug))
  ∧ (_id updatedBug = id
     → _id <$> App.updated _id id updatedBug prev = _id <$> prev).
Proof.
  unfold App.updated. split; [apply length_map|]. split.
  - intros i bug Hi.
    change (List.map ?g prev) with (g <$> prev).
    rewrite list_lookup_fmap, Hi. simpl. f_equal.
    destruct (decide (_id bug = id)) as [->|Hne].
    + by rewrite String.eqb_refl.
    + by apply String.eqb_neq in Hne as ->.
  - intros Hid. induction prev as [|bug prev IH]; [done|].
    simpl. f_equal; [|exact IH].
    destruct (String.eqb (_id bug) id) eqn:Heq; [|done].
    apply String.eqb_eq in Heq. congruence.
Qed.

End AppLaws.

(** "BACKEND" and "backend" show the same records. *)
Lemma search_ignores_case_of_term_witness :
  shown {| BugList.filter_status := ""; BugList.filter_priority := "";
           BugList.filter_search := "BACKEND" |} mockBugs
  = shown {| BugList.filter_status := ""; BugList.filter_priority := "";
             BugList.filter_search := "backend" |} mockBugs.
Proof.
  apply (search_ignores_case_of_term
           {| BugList.filter_status := ""; BugList.filter_priority := "";
              BugList.filter_search := "" |} "BACKEND" "backend" mockBugs).
  reflexivity.
Defined.

Section ViewLaws.

Import BugList BugListView.

Implicit Types (st : State) (b : Bug).

Lemma keeps_all (f : FilterSpec) b :
  nonEmpty (filter_status f) || nonEmpty (filter_priority f)
  || nonEmpty (filter_search f) = false →
  keeps f b = true.
Proof.
  intros H. apply orb_false_iff in H as [H Hq].
  apply orb_false_iff in H as [Hs Hp].
  unfold keeps. by rewrite Hs, Hp, Hq.
Qed.

Lemma filter_all_true {A} (p : A → bool) (xs : list A) :
  (∀ x, p x = true) → List.filter p xs = xs.
Proof.
  intros Hp. induction xs as [|x xs IH]; [done|].
  simpl. by rewrite Hp, IH.
Qed.

Lemma filter_sublist_impl {A} (p q : A → bool) (xs : list A) :
  (∀ x, p x = true → q x = true) →
  sublist (List.filter p xs) (List.filter q xs).
Proof.
  intros Hpq. induction xs as [|x xs IH]; simpl; [constructor|].
  destruct (p x) eqn:Hp.
  - rewrite (Hpq x Hp). by constructor.
  - destruct (q x); [by constructor|done].
Qed.

(** X17. Once the effect has run, the page heading counts the shown
    records; the "no bugs match your filters" message only appears
    together with the Clear Filters button and a non-empty list of records;
    without that button (no criterion set) and not loading, the page lists
    every record, or says that none is reported yet when there is none.
    After clearFilters the effect shows every record. *)
Theorem no_match_only_under_a_filter :
  (∀ (error : option string) (isLoading : bool) st,
     match render error isLoading (applyFilters st) with
     | ErrorPanel e => error = Some e ∧ e ≠ ""
     | Page count clearButton content =>
         count = length (shown (filter st) (bugs st))
         ∧ (content = NoMatch → clearButton = true ∧ bugs st ≠ [])
         ∧ (clearButton = false → isLoading = false
            → content = if decide (bugs st = []) then NoBugsYet
                        else Items (bugs st))
     end)
  ∧ ∀ st, filteredBugs (applyFilters (clearFilters st)) = bugs st.
Proof.
  split.
  - intros error isLoading st.
    assert (match page isLoading (applyFilters st) with
            | ErrorPanel e => error = Some e ∧ e ≠ ""
            | Page count clearButton content =>
                count = length (shown (filter st) (bugs st))
                ∧ (content = NoMatch → clearButton = true ∧ bugs st ≠ [])
                ∧ (clearButton = false → isLoading = false
                   → content = if decide (bugs st = []) then NoBugsYet
                               else Items (bugs st))
            end) as Hpage.
    { unfold page. rewrite applyFilters_keeps.
      change (filter (applyFilters st)) with (filter st).
      change (bugs (applyFilters st)) with (bugs st).
      split; [by rewrite shown_keeps|].
      destruct (nonEmpty (filter_status (filter st))
                || nonEmpty (filter_priority (filter st))
                || nonEmpty (filter_search (filter st))) eqn:Hactive.
      - split; [|done]. intros Hcontent. split; [done|].
        intros Hnil. rewrite Hnil in Hcontent. simpl in Hcontent.
        by destruct isLoading.
      - rewrite (filter_all_true (keeps (filter st)))
          by (intros b; by apply keeps_all).
        split.
        + destruct isLoading; [done|].
          destruct (bugs st) as [|b l]; simpl; done.
        + intros _ ->. by destruct (bugs st) as [|b l]. }
    unfold render. destruct error as [e|]; [|exact Hpage].
    destruct (nonEmpty e) eqn:He; [|exact Hpage].
    split; [done|]. intros ->. done.
  - intros st. rewrite applyFilters_keeps.
    apply filter_all_true. intros b. by apply keeps_all.
Qed.

(** X18. Setting a criterion that was empty only narrows the view: after
    handleFilterChange on the status, priority or search input, whose
    criterion was empty, the effect shows a subsequence of what it showed
    before. *)
Theorem new_criterion_narrows (name value : string) st :
  (name = "status" ∧ filter_status (filter st) = "")
  ∨ (name = "priority" ∧ filter_priority (filter st) = "")
  ∨ (name = "search" ∧ filter_search (filter st) = "") →
  sublist (filteredBugs (applyFilters (handleFilterChange name value st)))
          (filteredBugs (applyFilters st)).
Proof.
  intros Hname. rewrite !applyFilters_keeps.
  change (bugs (handleFilterChange name value st)) with (bugs st).
  apply filter_sublist_impl. intros b.
  unfold keeps, handleFilterChange.
  cbn [filter filter_status filter_priority filter_search].
  destruct Hname as [[-> Hempty]|[[-> Hempty]|[-> Hempty]]];
    rewrite Hempty; simpl;
    rewrite !andb_true_iff; tauto.
Qed.

End ViewLaws.

(** Choosing "open" where no status was chosen narrows the sample list. *)
Lemma new_criterion_narrows_witness :
  sublist
    (BugList.filteredBugs
       (BugList.applyFilters
          (BugListView.handleFilterChange "status" "open"
             {| BugList.bugs := mockBugs;
                BugList.filter :=
                  {| BugList.filter_status := "";
                     BugList.filter_priority := "";
                     BugList.filter_search := "bug" |};
                BugList.filteredBugs := mockBugs |})))
    (BugList.filteredBugs
       (BugList.applyFilters
          {| BugList.bugs := mockBugs;
             BugList.filter :=
               {| BugList.filter_status := "";
                  BugList.filter_priority := "";
                  BugList.filter_search := "bug" |};
             BugList.filteredBugs := mockBugs |})).
Proof.
  apply new_criterion_narrows. left. split; reflexivity.
Defined.
